(** * Canadian sales tax processor: [canada_tax/processor.py]

    A shallow embedding of [Processor] and the properties of its rate
    reduction ([tax_rate_list]), rate lookup ([get_rate]), shipping tax
    ([shipping]) and order aggregation ([process]).

    Conventions of the embedding.
    - [decimal.Decimal] values are finite decimals [coef * 10 ^ expo] with
      the arithmetic of the default context: every sum and product is
      rounded half-even to 28 significant digits.  The exponent limits of
      the context, signed zeros, infinities and NaN are left out.
    - A dict is a [gmap]; iteration over a dict visits each key once.
    - A raised exception is a [Raise] result; the logger is an append-only
      list of records threaded through every call. *)

From Stdlib Require Import ZArith QArith Qpower Qfield List String Ascii.
From Stdlib Require Import Permutation Sorted Lia.
From stdpp Require Import gmap strings list fin_maps.

Local Open Scope string_scope.
Local Open Scope list_scope.
Local Open Scope Z_scope.

(** ** Decimals *)

Module Dec.

Record t : Set := mk { coef : Z; expo : Z }.

(** The coefficient of [d] rewritten at the exponent [e <= expo d]. *)
Definition align (d : t) (e : Z) : Z := coef d * 10 ^ (expo d - e).

(** The precision of the default context. *)
Definition prec : Z := 28.

(** A coefficient of at most [prec] digits. *)
Definition fits (d : t) : Prop := Z.abs (coef d) < 10 ^ prec.

(** The number of digits [n] has beyond [prec]. *)
Fixpoint excess (fuel : nat) (n : Z) : Z :=
  match fuel with
  | O => 0
  | S fuel' => if n <? 10 ^ prec then 0 else 1 + excess fuel' (n / 10)
  end.

(** [n] without its last [k] digits, rounded half-even. *)
Definition round_half_even (n k : Z) : Z :=
  let q := n / 10 ^ k in
  let r := n mod 10 ^ k in
  let half := 10 ^ k / 2 in
  if ((half <? r) || ((r =? half) && Z.odd q))%bool then q + 1 else q.

(** What the context does to an exact result: a coefficient of more than
    [prec] digits is cut to [prec] digits and rounded; when rounding
    carries into one more digit, that digit goes too. *)
Definition round (d : t) : t :=
  let n := Z.abs (coef d) in
  if n <? 10 ^ prec then d
  else
    let k := excess (Z.to_nat (Z.log2 n)) n in
    let q := round_half_even n k in
    if q <? 10 ^ prec then mk (Z.sgn (coef d) * q) (expo d + k)
    else mk (Z.sgn (coef d) * (q / 10)) (expo d + k + 1).

(** The exact sum, at the smaller exponent. *)
Definition exact_add (a b : t) : t :=
  let e := Z.min (expo a) (expo b) in
  mk (align a e + align b e) e.

(** The exact product: coefficients multiply, exponents add. *)
Definition exact_mul (a b : t) : t := mk (coef a * coef b) (expo a + expo b).

(** [a + b] *)
Definition add (a b : t) : t := round (exact_add a b).

(** [a * b] *)
Definition mul (a b : t) : t := round (exact_mul a b).

(** [int * Decimal] converts the integer at exponent 0. *)
Definition of_Z (n : Z) : t := mk n 0.

(** Truth value of a decimal ([if d:]): false exactly at zero. *)
Definition truthy (d : t) : bool := negb (coef d =? 0).

(** The rational number a decimal denotes. *)
Definition value (d : t) : Q := (inject_Z (coef d) * (10 # 1) ^ expo d)%Q.

(** [Decimal("0.00")] *)
Definition zero_00 : t := mk 0 (-2).

End Dec.

Abbreviation Decimal := Dec.t.

(** ** Reference data *)

Record Country := { country_id : Z; iso2_code : string }.

Record AdminArea :=
  { area_id : Z; area_name : string; area_abbrev : string; area_country : Z }.

Record TaxClass := { taxclass_id : Z; title : string }.

(** [CanadianTaxRate]; the three references are primary keys. *)
Record TaxRate :=
  { taxClass : Z;
    taxZone : option Z;
    taxCountry : option Z;
    percentage : Decimal;
    taxCode : string;
    compound : bool;
    compound_order : Z;
    override : bool }.

(** ** [sorted(..., key=...)]

    Python's [sorted] is stable and ascending; a list has exactly one stable
    ascending arrangement, computed here by insertion from the right, each
    record going in front of the first record whose key is not smaller. *)

Section Sorted.
Context {A : Type} (key : A -> Z).

Fixpoint insert_by (x : A) (l : list A) : list A :=
  match l with
  | [] => [x]
  | y :: l' => if key x <=? key y then x :: l else y :: insert_by x l'
  end.

Definition sorted (l : list A) : list A := fold_right insert_by [] l.
End Sorted.

(** ** [Processor.tax_rate_list] *)

Definition Receipt : Type := list (string * Decimal).

(** Body of [for rate in regular_rates]. *)
Definition add_regular (acc : Decimal * Receipt) (rate : TaxRate) : Decimal * Receipt :=
  let '(totalrate, receipt_data) := acc in
  let receipt_data := receipt_data ++ [(taxCode rate, percentage rate)] in
  (Dec.add totalrate (percentage rate), receipt_data).

(** Body of [for rate in compound_rates]. *)
Definition add_compound (acc : Decimal * Receipt) (rate : TaxRate) : Decimal * Receipt :=
  let '(totalrate, receipt_data) := acc in
  let percentage' := Dec.add (percentage rate) (Dec.mul (percentage rate) totalrate) in
  let receipt_data := receipt_data ++ [(taxCode rate, percentage')] in
  (Dec.add totalrate percentage', receipt_data).

Definition tax_rate_list (rates : list TaxRate) : Decimal * Receipt :=
  match rates with
  | [] => (Dec.zero_00, [])
  | _ =>
      let override_rates := List.filter override rates in
      match override_rates with
      | rate :: _ => (percentage rate, [(taxCode rate, percentage rate)])
      | [] =>
          let regular_rates := List.filter (fun r => negb (compound r)) rates in
          let compound_rates :=
            sorted compound_order (List.filter compound rates) in
          let acc := (Dec.zero_00, []) in
          let acc := fold_left add_regular regular_rates acc in
          fold_left add_compound compound_rates acc
      end
  end.

(** ** Exceptions, logging and the computation monad *)

Inductive Model : Set := MCountry | MAdminArea | MTaxClass | MContact.

Inductive Exn : Set :=
| ImproperlyConfigured (taxclass : string)
| DoesNotExist (model : Model)
| KeyError (key : string)
| AttributeError.

Inductive Level : Set := DEBUG | INFO | ERROR.

Record LogRecord : Set := { levelname : Level; msg : string }.

Inductive Result (A : Type) : Type :=
| Return (a : A)
| Raise (e : Exn).
Arguments Return {A} a.
Arguments Raise {A} e.

(** A call reads the log so far and gives its outcome and the extended log. *)
Definition M (A : Type) : Type := list LogRecord -> Result A * list LogRecord.

Definition ret {A} (a : A) : M A := fun lg => (Return a, lg).

Definition raise {A} (e : Exn) : M A := fun lg => (Raise e, lg).

Definition bind {A B} (m : M A) (k : A -> M B) : M B :=
  fun lg =>
    match m lg with
    | (Return a, lg') => k a lg'
    | (Raise e, lg') => (Raise e, lg')
    end.

Notation "'let*' x ':=' m 'in' k" := (bind m (fun x => k))
  (at level 10, x name, m at level 200, k at level 200).
Notation "'let*' ' p ':=' m 'in' k" := (bind m (fun x => match x with p => k end))
  (at level 10, p pattern, m at level 200, k at level 200).

(** [try: body except <caught>: handler] *)
Definition try_except {A} (body : M A) (caught : Exn -> bool) (handler : M A) : M A :=
  fun lg =>
    match body lg with
    | (Raise e, lg') => if caught e then handler lg' else (Raise e, lg')
    | r => r
    end.

Definition log (lvl : Level) (m : string) : M unit :=
  fun lg => (Return tt, lg ++ [{| levelname := lvl; msg := m |}]).

(** [for x in xs: acc = body(acc, x)], stopping at the first exception. *)
Fixpoint for_each {A S} (xs : list A) (body : S -> A -> M S) (acc : S) : M S :=
  match xs with
  | [] => ret acc
  | x :: xs' => let* acc' := body acc x in for_each xs' body acc'
  end.

Definition Model_eqb (a b : Model) : bool :=
  match a, b with
  | MCountry, MCountry | MAdminArea, MAdminArea
  | MTaxClass, MTaxClass | MContact, MContact => true
  | _, _ => false
  end.

(** [except <Model>.DoesNotExist] *)
Definition is_DoesNotExist (m : Model) (e : Exn) : bool :=
  match e with
  | DoesNotExist m' => Model_eqb m' m
  | _ => false
  end.

(** [except ObjectDoesNotExist]: the base class of every [DoesNotExist]. *)
Definition is_ObjectDoesNotExist (e : Exn) : bool :=
  match e with DoesNotExist _ => true | _ => false end.

(** ** The data store *)

Record AddressBook := { state : string; country : Country }.

Record Contact :=
  { contact_user : Z;
    shipping_address : option AddressBook;
    billing_address : option AddressBook }.

Record User := { user_id : Z; is_authenticated : bool }.

Record Product := { taxable : bool; product_taxClass : option TaxClass }.

Record OrderItem := { product : Product; sub_total : Decimal }.

Record Order :=
  { ship_country : string; ship_state : string;
    bill_country : string; bill_state : string;
    shipping_sub_total : Decimal;
    orderitem_set : list OrderItem }.

(** The values [config_value('TAX', ...)] reads. *)
Record Settings :=
  { TAX_AREA_ADDRESS : string;
    TAX_SHIPPING_CANADIAN : bool;
    TAX_CLASS : string;
    TAX_SHIPPING_DETAILS_SEPARATE : bool }.

Record Store :=
  { settings : Settings;
    Country_objects : list Country;
    AdminArea_objects : list AdminArea;
    TaxClass_objects : list TaxClass;
    TaxRate_objects : list TaxRate;
    Contact_objects : list Contact;
    sales_country : option Country }.

Record Processor := { order : option Order; user : option User }.

(** Modelled from the spec: the model managers ([<Model>.objects.get]) are
    not part of this repository. The directories are keyed by what they are
    searched on (section 6 of the spec), so no lookup meets two matching
    records: it finds the one that matches or raises the model's
    [DoesNotExist]. *)
Definition objects_get {A} (m : Model) (table : list A) (matches : A -> bool) : M A :=
  match List.find matches table with
  | Some a => ret a
  | None => raise (DoesNotExist m)
  end.

(** [field__iexact]: equality up to the case of ASCII letters. *)
Definition lower_ascii (c : ascii) : ascii :=
  let n := nat_of_ascii c in
  if ((65 <=? n) && (n <=? 90))%nat then ascii_of_nat (n + 32) else c.

Fixpoint lower (s : string) : string :=
  match s with
  | EmptyString => EmptyString
  | String c s' => String (lower_ascii c) (lower s')
  end.

Definition iexact (a b : string) : bool := String.eqb (lower a) (lower b).

(** Truth value of a string: false exactly when empty. *)
Definition nonempty (s : string) : bool :=
  match s with EmptyString => false | _ => true end.

(** The [taxclass] argument of [get_rate]: absent, a name, or an object. *)
Inductive TaxClassArg :=
| TcNone
| TcName (name : string)
| TcObj (tc : TaxClass).

(** Truth value of an object that may be [None]. *)
Definition is_Some_b {A} (o : option A) : bool :=
  match o with Some _ => true | None => false end.

(** [d[k] += x] after [if k not in d: d[k] = Decimal('0.00')]. *)
Definition accumulate (d : gmap string Decimal) (k : string) (x : Decimal)
  : gmap string Decimal :=
  let d := match d !! k with None => <[k := Dec.zero_00]> d | Some _ => d end in
  alter (fun v => Dec.add v x) k d.

Section Processor.
Context (db : Store).

(** ** [Processor._get_location]

    The area is a string until it is resolved; an empty area string, which
    the source returns as it is, is falsy for every caller and is returned
    as [None]. *)
Definition _get_location (self : Processor)
  : M (option AdminArea * option Country) :=
  let calc_by_ship_address :=
    String.eqb (TAX_AREA_ADDRESS (settings db)) "ship" in
  let* '(area, country) :=
    match order self with
    | Some o =>
        let country := if calc_by_ship_address then ship_country o else bill_country o in
        let area := if calc_by_ship_address then ship_state o else bill_state o in
        if nonempty country then
          let* country :=
            try_except
              (let* c := objects_get MCountry (Country_objects db)
                      (fun c => String.eqb (iso2_code c) country) in
               ret (Some c))
              (is_DoesNotExist MCountry)
              (let* _ := log ERROR "Couldn't find Country from string: %s" in ret None) in
          ret (Some area, country)
        else ret (Some area, None)
    | None =>
        match user self with
        | Some u =>
            if is_authenticated u then
              try_except
                (let* contact := objects_get MContact (Contact_objects db)
                              (fun c => contact_user c =? user_id u) in
                 let address :=
                   if calc_by_ship_address then shipping_address contact
                   else billing_address contact in
                 (* an address that is missing raises AttributeError,
                    which both inner blocks swallow *)
                 ret (state <$> address, country <$> address))
                (is_DoesNotExist MContact)
                (ret (None, None))
            else ret (None, None)
        | None => ret (None, None)
        end
    end in
  let country :=
    match country with
    | Some c => Some c
    | None => sales_country db
    end in
  match area with
  | Some a =>
      if nonempty a then
        let in_country (r : AdminArea) :=
          match country with
          | Some c => area_country r =? country_id c
          | None => false
          end in
        let* area :=
          try_except
            (let* r := objects_get MAdminArea (AdminArea_objects db)
                    (fun r => iexact (area_name r) a && in_country r) in
             ret (Some r))
            (is_DoesNotExist MAdminArea)
            (try_except
               (let* r := objects_get MAdminArea (AdminArea_objects db)
                       (fun r => iexact (area_abbrev r) a && in_country r) in
                ret (Some r))
               (is_DoesNotExist MAdminArea)
               (let* _ := log INFO "Couldn't find AdminArea from string: %s" in ret None)) in
        ret (area, country)
      else ret (None, country)
  | None => ret (None, country)
  end.

(** [TaxRate.objects.filter(taxClass=..., taxZone=area)] *)
Definition rates_by_zone (tc : TaxClass) (area : AdminArea) : list TaxRate :=
  List.filter
    (fun r => (taxClass r =? taxclass_id tc) &&
              match taxZone r with Some z => z =? area_id area | None => false end)
    (TaxRate_objects db).

(** [TaxRate.objects.filter(taxClass=..., taxCountry=country)] *)
Definition rates_by_country (tc : TaxClass) (c : Country) : list TaxRate :=
  List.filter
    (fun r => (taxClass r =? taxclass_id tc) &&
              match taxCountry r with Some z => z =? country_id c | None => false end)
    (TaxRate_objects db).

(** What [get_rate] returns: the pair when [get_object], else the total. *)
Definition RateOf (get_object : bool) : Type :=
  if get_object then (Decimal * Receipt)%type else Decimal.

(** The name or object [get_rate] works with after
    [if not taxclass: taxclass = "Default"]. *)
Definition effective_taxclass (taxclass : TaxClassArg) : string + TaxClass :=
  match taxclass with
  | TcNone => inl "Default"
  | TcName s => if nonempty s then inl s else inl "Default"
  | TcObj tc => inr tc
  end.

(** [TaxClass.objects.get(title__iexact=name)] *)
Definition taxclass_by_name (name : string) : M TaxClass :=
  objects_get MTaxClass (TaxClass_objects db) (fun c => iexact (title c) name).

(** ** [Processor.get_rate] *)
Definition get_rate (self : Processor) (taxclass : TaxClassArg)
    (area : option AdminArea) (country : option Country) (get_object : bool)
  : M (RateOf get_object) :=
  let taxclass := effective_taxclass taxclass in
  let* '(area, country) :=
    (if negb (is_Some_b area || is_Some_b country)
     then _get_location self else ret (area, country)) in
  let* taxclass :=
    match taxclass with
    | inl name =>
        try_except (taxclass_by_name name)
          (is_DoesNotExist MTaxClass)
          (raise (ImproperlyConfigured name))
    | inr tc => ret tc
    end in
  let rates := [] in
  let rates :=
    match area with
    | Some a => rates ++ rates_by_zone taxclass a
    | None => rates
    end in
  let rates :=
    match country with
    | Some c => rates ++ rates_by_country taxclass c
    | None => rates
    end in
  let* _ := log DEBUG "Got rates for taxclass: %s, area: %s, country: %s = [%s]" in
  match get_object return M (RateOf get_object) with
  | true => ret (tax_rate_list rates)
  | false => ret (fst (tax_rate_list rates))
  end.

End Processor.

Section Aggregators.
Context (db : Store).

(** What [shipping] returns: the pair when [with_details], else the tax. *)
Definition ShippingOf (with_details : bool) : Type :=
  if with_details then (Decimal * gmap string Decimal)%type else Decimal.

(** ** [Processor.by_price], [by_orderitem], [get_percent] *)
Definition by_price (self : Processor) (taxclass : TaxClassArg) (price : Decimal)
  : M Decimal :=
  let* rate := get_rate db self taxclass None None false in
  ret (Dec.mul rate price).

Definition taxclass_arg (tc : option TaxClass) : TaxClassArg :=
  match tc with
  | Some c => TcObj c
  | None => TcNone
  end.

Definition by_orderitem (self : Processor) (orderitem : OrderItem) : M Decimal :=
  if taxable (product orderitem) then
    let price := sub_total orderitem in
    let taxclass := product_taxClass (product orderitem) in
    by_price self (taxclass_arg taxclass) price
  else ret Dec.zero_00.

Definition get_percent (self : Processor) (taxclass : TaxClassArg)
    (area : option AdminArea) (country : option Country) : M Decimal :=
  let* rate := get_rate db self taxclass area country false in
  ret (Dec.mul (Dec.of_Z 100) rate).

(** [TaxClass.objects.get(title=name)]: the title as it is written. *)
Definition taxclass_by_title (name : string) : M TaxClass :=
  objects_get MTaxClass (TaxClass_objects db) (fun c => String.eqb (title c) name).

(** The block of [shipping] that finds [full_rate] and [taxes]:
    [if config_value('TAX','TAX_SHIPPING_CANADIAN'): try: ... except ...],
    both starting as [None] and [[]]. *)
Definition shipping_rate (self : Processor) : M (option Decimal * Receipt) :=
  if TAX_SHIPPING_CANADIAN (settings db) then
    try_except
      (let* taxclass := taxclass_by_title (TAX_CLASS (settings db)) in
       let* '(full_rate, taxes) :=
         get_rate db self (TcObj taxclass) None None true in
       ret (Some full_rate, taxes))
      is_ObjectDoesNotExist
      (let* _ := log ERROR "'Shipping' TaxClass doesn't exist." in
       ret (None, []))
  else ret (None, []).

(** [for taxcode, rate in taxes: ... tax_details[taxcode] += rate * price] *)
Definition add_details (taxes : Receipt) (price : Decimal)
    (tax_details : gmap string Decimal) : gmap string Decimal :=
  fold_left
    (fun d '(taxcode, rate) => accumulate d taxcode (Dec.mul rate price))
    taxes tax_details.

(** [if subtotal is None and self.order:
       subtotal = self.order.shipping_sub_total] *)
Definition shipping_subtotal (self : Processor) (subtotal : option Decimal)
  : option Decimal :=
  match subtotal, order self with
  | None, Some o => Some (shipping_sub_total o)
  | _, _ => subtotal
  end.

(** ** [Processor.shipping] *)
Definition shipping (self : Processor) (subtotal : option Decimal)
    (with_details : bool) : M (ShippingOf with_details) :=
  let subtotal := shipping_subtotal self subtotal in
  let tax_details : gmap string Decimal := ∅ in
  let* '(ship_tax, tax_details) :=
    match subtotal with
    | Some subtotal' =>
        if Dec.truthy subtotal' then
          let* '(full_rate, taxes) := shipping_rate self in
          let ship_tax :=
            match full_rate with
            | Some r => if Dec.truthy r then Dec.mul r subtotal' else Dec.zero_00
            | None => Dec.zero_00
            end in
          let tax_details :=
            if with_details then add_details taxes subtotal' tax_details
            else tax_details in
          ret (ship_tax, tax_details)
        else ret (Dec.zero_00, tax_details)
    | None => ret (Dec.zero_00, tax_details)
    end in
  match with_details return M (ShippingOf with_details) with
  | true => ret (ship_tax, tax_details)
  | false => ret ship_tax
  end.

(** Body of [for item in order.orderitem_set.filter(product__taxable=True)]. *)
Definition process_item (self : Processor)
    (acc : Decimal * gmap string Decimal) (item : OrderItem)
  : M (Decimal * gmap string Decimal) :=
  let '(sub_total', tax_details) := acc in
  let taxclass := product_taxClass (product item) in
  let* '(full_rate, taxes) :=
    get_rate db self (taxclass_arg taxclass) None None true in
  let price := sub_total item in
  let sub_total' := Dec.add sub_total' (Dec.mul price full_rate) in
  let tax_details := add_details taxes price tax_details in
  ret (sub_total', tax_details).

(** [for taxcode in ship_tax_details:
       tax_details['Shipping ' + taxcode] = ship_tax_details['taxCode']] *)
Definition shipping_details_separate (ship_tax_details : gmap string Decimal)
    (tax_details : gmap string Decimal) : M (gmap string Decimal) :=
  for_each (map_to_list ship_tax_details)
    (fun d '(taxcode, _) =>
       match ship_tax_details !! "taxCode" with
       | Some v => ret (<["Shipping " +:+ taxcode := v]> d)
       | None => raise (KeyError "taxCode")
       end)
    tax_details.

(** Body of the loop that merges the shipping details. *)
Definition merge_step (d : gmap string Decimal) (kv : string * Decimal)
  : gmap string Decimal :=
  let '(taxcode, v) := kv in
  <[taxcode := Dec.add (default Dec.zero_00 (d !! taxcode)) v]> d.

(** [for taxcode in ship_tax_details:
       tax_details[taxcode] = tax_details.get(taxcode, Decimal('0.00'))
                              + ship_tax_details[taxcode]] *)
Definition shipping_details_merged (ship_tax_details : gmap string Decimal)
    (tax_details : gmap string Decimal) : gmap string Decimal :=
  fold_left merge_step (map_to_list ship_tax_details) tax_details.

(** [self.order = order] *)
Definition set_order (self : Processor) (o : Order) : Processor :=
  {| order := Some o; user := user self |}.

(** ** [Processor.process]

    [self.order = order] is seen by the calls made below through [self]. *)
Definition process (self : Processor) (order_arg : option Order)
  : M (Decimal * gmap string Decimal) :=
  let self :=
    match order_arg with
    | Some o => set_order self o
    | None => self
    end in
  match order self with
  | None => raise AttributeError
  | Some order' =>
      let acc := (Dec.zero_00, ∅) in
      let* '(sub_total', tax_details) :=
        for_each (List.filter (fun i => taxable (product i)) (orderitem_set order'))
          (process_item self) acc in
      let* '(ship_taxes, ship_tax_details) := shipping self None true in
      let sub_total' := Dec.add sub_total' ship_taxes in
      let* tax_details :=
        if TAX_SHIPPING_DETAILS_SEPARATE (settings db) then
          shipping_details_separate ship_tax_details tax_details
        else ret (shipping_details_merged ship_tax_details tax_details) in
      ret (sub_total', tax_details)
  end.

End Aggregators.

(** ** Vocabulary of the statements *)

(** The two groups [tax_rate_list] splits its input into. *)
Definition regular_of (rates : list TaxRate) : list TaxRate :=
  List.filter (fun r => negb (compound r)) rates.

Definition compound_of (rates : list TaxRate) : list TaxRate :=
  List.filter compound rates.

(** The receipt line of a rate taken at its own percentage. *)
Definition entry (r : TaxRate) : string * Decimal := (taxCode r, percentage r).

Definition Qsum (l : list Q) : Q := fold_right Qplus 0%Q l.

Definition Qprod (l : list Q) : Q := fold_right Qmult 1%Q l.

(** The rational a rate's percentage denotes. *)
Definition rate_value (r : TaxRate) : Q := Dec.value (percentage r).

(** Sum of the percentages of the non-compound records. *)
Definition base_rate (rates : list TaxRate) : Q :=
  Qsum (List.map rate_value (regular_of rates)).

(** Sum of the percentages listed on a receipt. *)
Definition receipt_total (receipt : Receipt) : Q :=
  Qsum (List.map (fun e => Dec.value (snd e)) receipt).


(** The receipt and the running total of a loop state agree. *)
Definition in_step (acc : Decimal * Receipt) : Prop :=
  (receipt_total (snd acc) == Dec.value (fst acc))%Q.

(** The percentages listed on a receipt, added up as the code adds them:
    one after the other from [Decimal('0.00')]. *)
Definition lines_sum (receipt : Receipt) : Decimal :=
  fold_left Dec.add (List.map snd receipt) Dec.zero_00.

(** The effective percentage of the compound record [c] on top of the
    running total [t]: [rate.percentage + (rate.percentage * totalrate)]. *)
Definition compound_line (c : TaxRate) (t : Decimal) : Decimal :=
  Dec.add (percentage c) (Dec.mul (percentage c) t).

(** The running total after the loop over the non-compound records. *)
Definition regular_sum (rates : list TaxRate) : Decimal :=
  fold_left Dec.add (List.map percentage (regular_of rates)) Dec.zero_00.

(** Adding [ps] to [t] one after the other, no sum needs rounding. *)
Fixpoint sum_fits (ps : list Decimal) (t : Decimal) : Prop :=
  match ps with
  | [] => True
  | p :: ps' => Dec.fits (Dec.exact_add t p) /\ sum_fits ps' (Dec.add t p)
  end.

(** Running the loop over the compound records [cs] from the total [t],
    no product and no sum needs rounding. *)
Fixpoint compound_fits (cs : list TaxRate) (t : Decimal) : Prop :=
  match cs with
  | [] => True
  | c :: cs' =>
      let p := percentage c in
      Dec.fits (Dec.exact_mul p t)
      /\ Dec.fits (Dec.exact_add p (Dec.mul p t))
      /\ Dec.fits (Dec.exact_add t (Dec.add p (Dec.mul p t)))
      /\ compound_fits cs' (Dec.add t (Dec.add p (Dec.mul p t)))
  end.

(** Every intermediate result of [tax_rate_list] on [rates] has at most 28
    digits, so that none is rounded. *)
Definition no_rounding (rates : list TaxRate) : Prop :=
  sum_fits (List.map percentage (regular_of rates)) Dec.zero_00
  /\ compound_fits (sorted compound_order (compound_of rates)) (regular_sum rates).

(** A percentage of at most seven digits, six of them after the point. *)
Definition six_place (r : TaxRate) : Prop :=
  Dec.expo (percentage r) = -6 /\ Z.abs (Dec.coef (percentage r)) < 10 ^ 7.

(** The running total of the first loop over six-place rates: [0.00]
    before the first record, six places after it. *)
Definition six_total (t : Decimal) : Prop :=
  Dec.expo t = -6 \/ (Dec.expo t = -2 /\ Dec.coef t = 0).

(** What a call returns or raises when started on an empty log. *)
Definition outcome {A} (m : M A) : Result A := fst (m []).

(** The log a call starts from has no influence on what it returns. *)
Definition log_blind {A} (m : M A) : Prop :=
  forall lg lg', fst (m lg) = fst (m lg').

Definition never_raises {A} (m : M A) : Prop :=
  forall lg, exists a lg', m lg = (Return a, lg').

(** What [shipping] returns when no shipping tax applies. *)
Definition no_shipping_tax (with_details : bool) : ShippingOf with_details :=
  match with_details with
  | true => (Dec.zero_00, ∅)
  | false => Dec.zero_00
  end.

(** The amount lines of [taxes] put on [code] for a price. *)
Definition charged (taxes : Receipt) (price : Decimal) (code : string) : Q :=
  Qsum (List.map
          (fun e => if String.eqb (fst e) code
                    then (Dec.value (snd e) * Dec.value price)%Q else 0%Q)
          taxes).

(** The number an entry holds, zero when there is none. *)
Definition entry_value (cur : option Decimal) : Q :=
  match cur with
  | Some v => Dec.value v
  | None => 0%Q
  end.

(** The number stored under [code], zero when the key is absent. *)
Definition value_at (d : gmap string Decimal) (code : string) : Q :=
  entry_value (d !! code).

(** What the loop over [taxes] makes of the entry [cur] of [code]: each
    line of that code adds its rate times the price, starting from [0.00]
    when the entry is missing. *)
Fixpoint code_amount (code : string) (taxes : Receipt) (price : Decimal)
    (cur : option Decimal) : option Decimal :=
  match taxes with
  | [] => cur
  | (k, r) :: rest =>
      code_amount code rest price
        (if String.eqb k code
         then Some (Dec.add (default Dec.zero_00 cur) (Dec.mul r price))
         else cur)
  end.

(** No product and no sum behind [code_amount] needs rounding. *)
Fixpoint code_fits (code : string) (taxes : Receipt) (price : Decimal)
    (cur : option Decimal) : Prop :=
  match taxes with
  | [] => True
  | (k, r) :: rest =>
      if String.eqb k code
      then Dec.fits (Dec.exact_mul r price)
           /\ Dec.fits (Dec.exact_add (default Dec.zero_00 cur) (Dec.mul r price))
           /\ code_fits code rest price
                (Some (Dec.add (default Dec.zero_00 cur) (Dec.mul r price)))
      else code_fits code rest price cur
  end.

(** The order [process] works on: its argument, else [self.order]. *)
Definition process_order (self : Processor) (order_arg : option Order)
  : option Order :=
  match order_arg with
  | Some o => Some o
  | None => order self
  end.

Section Charges.
Context (db : Store) (self : Processor) (o : Order).

Definition taxable_items : list OrderItem :=
  List.filter (fun i => taxable (product i)) (orderitem_set o).

(** The per-code rates [get_rate] gives for an item's tax class. *)
Definition item_taxes (item : OrderItem) : Receipt :=
  match outcome (get_rate db self (taxclass_arg (product_taxClass (product item)))
                   None None true) with
  | Return (_, taxes) => taxes
  | Raise _ => []
  end.

(** The detail map the item loop builds from [d]. *)
Definition item_details (items : list OrderItem) (d : gmap string Decimal)
  : gmap string Decimal :=
  fold_left
    (fun d item => add_details (item_taxes item) (sub_total item) d)
    items d.

(** The per-code rates [shipping] works with. *)
Definition shipping_taxes : Receipt :=
  if Dec.truthy (shipping_sub_total o) then
    match outcome (shipping_rate db self) with
    | Return (_, taxes) => taxes
    | Raise _ => []
    end
  else [].

(** Merchandise tax on [code]: over the taxable items, the code's rate
    times the item subtotal. *)
Definition merchandise_charge (code : string) : Q :=
  Qsum (List.map (fun item => charged (item_taxes item) (sub_total item) code)
          taxable_items).

(** Shipping tax on [code]: the code's rate times the shipping subtotal. *)
Definition shipping_charge (code : string) : Q :=
  charged shipping_taxes (shipping_sub_total o) code.

(** The entry of [code] after the loop over [items], from the entry [cur]. *)
Definition items_amount (code : string) (items : list OrderItem)
    (cur : option Decimal) : option Decimal :=
  fold_left
    (fun cur item => code_amount code (item_taxes item) (sub_total item) cur)
    items cur.

(** The entry of [code] in the details of the taxable items. *)
Definition merchandise_amount (code : string) : option Decimal :=
  items_amount code taxable_items None.

(** The entry of [code] in the details of the shipping tax. *)
Definition shipping_amount (code : string) : option Decimal :=
  code_amount code shipping_taxes (shipping_sub_total o) None.

(** The entry of [code] once the shipping details are merged in. *)
Definition merged_amount (code : string) : option Decimal :=
  match shipping_amount code with
  | Some v => Some (Dec.add (default Dec.zero_00 (merchandise_amount code)) v)
  | None => merchandise_amount code
  end.

Fixpoint items_fit (code : string) (items : list OrderItem)
    (cur : option Decimal) : Prop :=
  match items with
  | [] => True
  | item :: rest =>
      code_fits code (item_taxes item) (sub_total item) cur
      /\ items_fit code rest
           (code_amount code (item_taxes item) (sub_total item) cur)
  end.

(** No product and no sum behind the entry of [code] needs rounding. *)
Definition details_fit (code : string) : Prop :=
  items_fit code taxable_items None
  /\ code_fits code shipping_taxes (shipping_sub_total o) None
  /\ match shipping_amount code with
     | Some v =>
         Dec.fits (Dec.exact_add (default Dec.zero_00 (merchandise_amount code)) v)
     | None => True
     end.
End Charges.


(** ** Vocabulary of the further properties *)

(** The first stage of [get_rate]: [_get_location] unless an area or a
    country was passed in. *)
Definition locate (db : Store) (self : Processor)
    (area : option AdminArea) (country : option Country)
  : M (option AdminArea * option Country) :=
  if negb (is_Some_b area || is_Some_b country)
  then _get_location db self else ret (area, country).

(** The rates [get_rate] collects: those of the area, then those of the
    country. *)
Definition matching_rates (db : Store) (tc : TaxClass)
    (area : option AdminArea) (country : option Country) : list TaxRate :=
  match area with Some a => rates_by_zone db tc a | None => [] end
  ++ match country with Some c => rates_by_country db tc c | None => [] end.

(** The reduced pair as [get_rate] hands it out. *)
Definition rate_result (get_object : bool) (r : Decimal * Receipt)
  : RateOf get_object :=
  match get_object return RateOf get_object with
  | true => r
  | false => fst r
  end.

(** The tax class [get_rate] ends up with for its [taxclass] argument. *)
Definition resolves (db : Store) (taxclass : TaxClassArg) (cls : TaxClass) : Prop :=
  match effective_taxclass taxclass with
  | inl name =>
      List.find (fun c => iexact (title c) name) (TaxClass_objects db) = Some cls
  | inr tc => tc = cls
  end.

(** The record [get_rate] logs before it returns. *)
Definition got_rates : LogRecord :=
  {| levelname := DEBUG;
     msg := "Got rates for taxclass: %s, area: %s, country: %s = [%s]" |}.

(** The address strings [_get_location] reads off an order: shipping ones
    when [TAX_AREA_ADDRESS] is ['ship'], billing ones otherwise. *)
Definition order_country (db : Store) (o : Order) : string :=
  if String.eqb (TAX_AREA_ADDRESS (settings db)) "ship"
  then ship_country o else bill_country o.

Definition order_state (db : Store) (o : Order) : string :=
  if String.eqb (TAX_AREA_ADDRESS (settings db)) "ship"
  then ship_state o else bill_state o.

(** The country row with the ISO code an order names, if any. *)
Definition country_by_code (db : Store) (code : string) : option Country :=
  if nonempty code
  then List.find (fun c => String.eqb (iso2_code c) code) (Country_objects db)
  else None.

Definition country_not_found : LogRecord :=
  {| levelname := ERROR; msg := "Couldn't find Country from string: %s" |}.

Definition area_not_found : LogRecord :=
  {| levelname := INFO; msg := "Couldn't find AdminArea from string: %s" |}.

(** The country [_get_location] settles on: the one found, else the store's
    sales country. *)
Definition country_or_default (db : Store) (found : option Country)
  : option Country :=
  match found with
  | Some c => Some c
  | None => sales_country db
  end.

(** The area row for an address string within a country: by name first,
    then by abbreviation, letter case aside. *)
Definition resolved_area (db : Store) (st : option string)
    (country : option Country) : option AdminArea :=
  match st with
  | Some a =>
      if nonempty a then
        let in_country (r : AdminArea) :=
          match country with
          | Some c => area_country r =? country_id c
          | None => false
          end in
        match List.find (fun r => iexact (area_name r) a && in_country r)
                (AdminArea_objects db) with
        | Some r => Some r
        | None =>
            List.find (fun r => iexact (area_abbrev r) a && in_country r)
              (AdminArea_objects db)
        end
      else None
  | None => None
  end.

(** What [_get_location] logs about the area string. *)
Definition area_infos (db : Store) (st : option string)
    (country : option Country) : list LogRecord :=
  match st with
  | Some a =>
      if nonempty a && negb (is_Some_b (resolved_area db st country))
      then [area_not_found] else []
  | None => []
  end.

(** What [_get_location] logs about an order's country string. *)
Definition country_errors (db : Store) (o : Order) : list LogRecord :=
  if nonempty (order_country db o)
     && negb (is_Some_b (country_by_code db (order_country db o)))
  then [country_not_found] else [].

(** The address [_get_location] reads for a user: that of the contact of an
    authenticated user, shipping or billing as [TAX_AREA_ADDRESS] says. *)
Definition user_address (db : Store) (self : Processor) : option AddressBook :=
  match user self with
  | Some u =>
      if is_authenticated u then
        match List.find (fun c => contact_user c =? user_id u)
                (Contact_objects db) with
        | Some contact =>
            if String.eqb (TAX_AREA_ADDRESS (settings db)) "ship"
            then shipping_address contact else billing_address contact
        | None => None
        end
      else None
  | None => None
  end.

(** [if subtotal:] for the shipping subtotal, which may be [None]. *)
Definition subtotal_given (subtotal : option Decimal) : bool :=
  match subtotal with
  | Some d => Dec.truthy d
  | None => false
  end.

(** The pair of tax and details as [shipping] hands it out. *)
Definition shipping_result (with_details : bool)
    (r : Decimal * gmap string Decimal) : ShippingOf with_details :=
  match with_details return ShippingOf with_details with
  | true => r
  | false => fst r
  end.

(** [full_rate * subtotal] if [full_rate] is set and not zero, else [0.00]. *)
Definition ship_tax_of (full_rate : option Decimal) (subtotal : Decimal) : Decimal :=
  match full_rate with
  | Some r => if Dec.truthy r then Dec.mul r subtotal else Dec.zero_00
  | None => Dec.zero_00
  end.

(** Whether some tax class is titled "Default", letter case aside. *)
Definition has_default (db : Store) : bool :=
  is_Some_b (List.find (fun c => iexact (title c) "Default") (TaxClass_objects db)).

(** Whether [get_rate] can find a class for each of the items: a class
    titled "Default" exists or every item has a class of its own. *)
Definition items_resolve (db : Store) (items : list OrderItem) : bool :=
  has_default db
  || forallb (fun i => is_Some_b (product_taxClass (product i))) items.

(** ** Sample data *)

Module Examples.
Definition pct (c : Z) : Decimal := Dec.mk c (-2).

Definition rate (code : string) (p : Decimal) (cmp : bool) (ord : Z) (ovr : bool)
  : TaxRate :=
  {| taxClass := 1; taxZone := None; taxCountry := Some 1; percentage := p;
     taxCode := code; compound := cmp; compound_order := ord; override := ovr |}.

Definition GST : TaxRate := rate "GST" (pct 5) false 0 false.
Definition PST : TaxRate := rate "PST" (pct 7) true 1 false.

Definition CA : Country := {| country_id := 1; iso2_code := "CA" |}.
Definition Default_class : TaxClass := {| taxclass_id := 1; title := "Default" |}.
Definition Shipping_class : TaxClass := {| taxclass_id := 2; title := "Shipping" |}.

(** Shipping is taxed at the GST only. *)
Definition GST_on_shipping : TaxRate :=
  {| taxClass := 2; taxZone := None; taxCountry := Some 1; percentage := pct 5;
     taxCode := "GST"; compound := false; compound_order := 0; override := false |}.

(** A store in Canada with GST and PST on merchandise, shipping taxed
    under the class named [tax_class]. *)
Definition store (separate : bool) (tax_class : string) : Store :=
  {| settings :=
       {| TAX_AREA_ADDRESS := "ship"; TAX_SHIPPING_CANADIAN := true;
          TAX_CLASS := tax_class; TAX_SHIPPING_DETAILS_SEPARATE := separate |};
     Country_objects := [CA];
     AdminArea_objects := [];
     TaxClass_objects := [Default_class; Shipping_class];
     TaxRate_objects := [GST; PST; GST_on_shipping];
     Contact_objects := [];
     sales_country := Some CA |}.

(** The same store before any tax class is entered. *)
Definition bare_store : Store :=
  {| settings := settings (store false "Shipping");
     Country_objects := [CA];
     AdminArea_objects := [];
     TaxClass_objects := [];
     TaxRate_objects := [];
     Contact_objects := [];
     sales_country := Some CA |}.

(** One taxable item of 20.00 shipped within Canada for 10.00. *)
Definition an_order : Order :=
  {| ship_country := "CA"; ship_state := ""; bill_country := "CA"; bill_state := "";
     shipping_sub_total := Dec.mk 1000 (-2);
     orderitem_set :=
       [ {| product := {| taxable := true; product_taxClass := None |};
            sub_total := Dec.mk 2000 (-2) |} ] |}.

Definition processor : Processor := {| order := None; user := None |}.
End Examples.

(** Rates and prices with many digits. *)
Module LongExamples.
Import Examples.

Definition six (c : Z) : Decimal := Dec.mk c (-6).

(** A rate of fifteen decimal places, once regular and once compound. *)
Definition A15 : TaxRate := rate "A" (Dec.mk 123456789012345 (-15)) false 0 false.
Definition B15 : TaxRate := rate "B" (Dec.mk 123456789012345 (-15)) true 1 false.

(** A regular rate of twenty-eight decimal places. *)
Definition GST28 : TaxRate :=
  rate "GST" (Dec.mk 1649208433728283673311740157 (-28)) false 0 false.

(** Six-place rates: one regular and four compound ones. *)
Definition base6 : TaxRate := rate "GST" (six 6713) false 0 false.
Definition first6 : TaxRate := rate "T1" (six 724917) true 1 false.
Definition second6 : TaxRate := rate "T2" (six 729805) true 2 false.
Definition third6 : TaxRate := rate "T3" (six 313896) true 3 false.
Definition fourth6 : TaxRate := rate "T4" (six 198979) true 4 false.

(** Four six-place compound rates that share [compound_order] 1. *)
Definition tied1 : TaxRate := rate "T1" (six 198979) true 1 false.
Definition tied2 : TaxRate := rate "T2" (six 313896) true 1 false.
Definition tied3 : TaxRate := rate "T3" (six 729805) true 1 false.
Definition tied4 : TaxRate := rate "T4" (six 724917) true 1 false.

(** A store with a GST of 4.9875%, a PST of 7.4125% compounding on it,
    and no tax on shipping. *)
Definition GST6 : TaxRate := rate "GST" (six 49875) false 0 false.
Definition PST6 : TaxRate := rate "PST" (six 74125) true 1 false.

Definition store : Store :=
  {| settings :=
       {| TAX_AREA_ADDRESS := "ship"; TAX_SHIPPING_CANADIAN := false;
          TAX_CLASS := "Shipping"; TAX_SHIPPING_DETAILS_SEPARATE := false |};
     Country_objects := [CA];
     AdminArea_objects := [];
     TaxClass_objects := [Default_class; Shipping_class];
     TaxRate_objects := [GST6; PST6];
     Contact_objects := [];
     sales_country := Some CA |}.

(** One taxable item of 98765432.9876543219, shipped within Canada. *)
Definition an_order : Order :=
  {| ship_country := "CA"; ship_state := ""; bill_country := "CA"; bill_state := "";
     shipping_sub_total := Dec.mk 1000 (-2);
     orderitem_set :=
       [ {| product := {| taxable := true; product_taxClass := None |};
            sub_total := Dec.mk 987654329876543219 (-10) |} ] |}.
End LongExamples.

Module TiedExamples.
Import Examples.

(** A third rate, compounding after [PST]. *)
Definition QST : TaxRate := rate "QST" (pct 8) true 2 false.

(** Two compound rates that share [compound_order] 1. *)
Definition tied_a : TaxRate := rate "PST" (pct 7) true 1 false.
Definition tied_b : TaxRate := rate "QST" (pct 8) true 1 false.
End TiedExamples.

Module AreaExamples.
Import Examples.

Definition Alberta : AdminArea :=
  {| area_id := 5; area_name := "Alberta"; area_abbrev := "AB"; area_country := 1 |}.

(** A harmonised rate that replaces every other rate in Alberta. *)
Definition HST_Alberta : TaxRate :=
  {| taxClass := 1; taxZone := Some 5; taxCountry := None; percentage := pct 13;
     taxCode := "HST"; compound := false; compound_order := 0; override := true |}.

Definition US : Country := {| country_id := 2; iso2_code := "US" |}.

(** A signed-in customer whose contact ships to Alberta and is billed in
    the United States. *)
Definition shopper : User := {| user_id := 7; is_authenticated := true |}.

Definition shopper_contact : Contact :=
  {| contact_user := 7;
     shipping_address := Some {| state := "Alberta"; country := CA |};
     billing_address := Some {| state := "NY"; country := US |} |}.

Definition store : Store :=
  {| settings := settings (Examples.store false "Shipping");
     Country_objects := [CA; US];
     AdminArea_objects := [Alberta];
     TaxClass_objects := [Default_class; Shipping_class];
     TaxRate_objects := [GST; PST; GST_on_shipping; HST_Alberta];
     Contact_objects := [shopper_contact];
     sales_country := Some US |}.

(** An order shipped to Alberta, the province given by its abbreviation. *)
Definition order_to_Alberta : Order :=
  {| ship_country := "CA"; ship_state := "ab"; bill_country := "US"; bill_state := "";
     shipping_sub_total := Dec.mk 1000 (-2);
     orderitem_set :=
       [ {| product := {| taxable := true; product_taxClass := None |};
            sub_total := Dec.mk 2000 (-2) |} ] |}.

(** An order whose country code is not in the directory. *)
Definition order_to_nowhere : Order :=
  {| ship_country := "ZZ"; ship_state := ""; bill_country := ""; bill_state := "";
     shipping_sub_total := Dec.mk 0 (-2);
     orderitem_set := [] |}.

(** The same store with the shipping details kept separate. *)
Definition store_separate : Store :=
  {| settings :=
       {| TAX_AREA_ADDRESS := "ship"; TAX_SHIPPING_CANADIAN := true;
          TAX_CLASS := "Shipping"; TAX_SHIPPING_DETAILS_SEPARATE := true |};
     Country_objects := Country_objects store;
     AdminArea_objects := AdminArea_objects store;
     TaxClass_objects := TaxClass_objects store;
     TaxRate_objects := TaxRate_objects store;
     Contact_objects := Contact_objects store;
     sales_country := sales_country store |}.
End AreaExamples.

(** * Properties *)

(** ** Decimal arithmetic and rational arithmetic *)

Module DecFacts.
Import Dec.

Lemma ten_nonzero : ~ ((10 # 1) == 0)%Q.
Proof. discriminate. Qed.

Lemma align_value (d : t) (e : Z) :
  e <= expo d -> (inject_Z (align d e) * (10 # 1) ^ e == value d)%Q.
Proof.
  intros He. unfold align, value.
  rewrite inject_Z_mult, Zpower_Qpower by lia.
  replace (expo d) with ((expo d - e) + e) at 2 by lia.
  rewrite (Qpower_plus _ (expo d - e) e ten_nonzero).
  change (inject_Z 10) with (10 # 1)%Q. ring.
Qed.

Lemma value_exact_add (a b : t) :
  (value (exact_add a b) == value a + value b)%Q.
Proof.
  rewrite <- (align_value a (Z.min (expo a) (expo b))) by lia.
  rewrite <- (align_value b (Z.min (expo a) (expo b))) by lia.
  unfold exact_add, value at 1; cbn [coef expo].
  rewrite inject_Z_plus. ring.
Qed.

Lemma value_exact_mul (a b : t) :
  (value (exact_mul a b) == value a * value b)%Q.
Proof.
  unfold exact_mul, value; cbn [coef expo].
  rewrite inject_Z_mult, (Qpower_plus _ _ _ ten_nonzero). ring.
Qed.

Lemma value_zero_00 : (value zero_00 == 0)%Q.
Proof. reflexivity. Qed.

(** A result of at most 28 digits is left as it is. *)
Lemma round_fits_id (d : t) : fits d -> round d = d.
Proof.
  unfold fits, round. intros H.
  destruct (Z.ltb_spec (Z.abs (coef d)) (10 ^ prec)); [reflexivity | lia].
Qed.

Lemma add_exact (a b : t) : fits (exact_add a b) -> add a b = exact_add a b.
Proof. apply round_fits_id. Qed.

Lemma mul_exact (a b : t) : fits (exact_mul a b) -> mul a b = exact_mul a b.
Proof. apply round_fits_id. Qed.

Lemma value_add (a b : t) :
  fits (exact_add a b) -> (value (add a b) == value a + value b)%Q.
Proof. intros H. rewrite (add_exact _ _ H). apply value_exact_add. Qed.

Lemma value_mul (a b : t) :
  fits (exact_mul a b) -> (value (mul a b) == value a * value b)%Q.
Proof. intros H. rewrite (mul_exact _ _ H). apply value_exact_mul. Qed.

Lemma mul_comm (a b : t) : mul a b = mul b a.
Proof.
  unfold mul, exact_mul. f_equal. f_equal; [apply Z.mul_comm | apply Z.add_comm].
Qed.

Lemma pow_prec_pos : 0 < 10 ^ prec.
Proof. reflexivity. Qed.

(** With enough fuel, [excess] counts all the digits beyond the 28th. *)
Lemma excess_spec (fuel : nat) (n : Z) :
  0 <= n < 10 ^ prec * 10 ^ Z.of_nat fuel ->
  0 <= excess fuel n /\ n / 10 ^ excess fuel n < 10 ^ prec.
Proof.
  revert n. induction fuel as [|fuel IH]; intros n Hn.
  - cbn [excess]. change (10 ^ Z.of_nat 0) with 1 in Hn.
    change (10 ^ 0) with 1. rewrite Z.div_1_r. lia.
  - cbn [excess]. destruct (Z.ltb_spec n (10 ^ prec)) as [Hlt|Hge].
    + change (10 ^ 0) with 1. rewrite Z.div_1_r. lia.
    + destruct (IH (n / 10)) as [He Hq].
      { split; [apply Z.div_pos; lia|].
        apply Z.div_lt_upper_bound; [lia|].
        rewrite Nat2Z.inj_succ, Z.pow_succ_r in Hn by lia. lia. }
      split; [lia|].
      rewrite Z.pow_add_r, Z.pow_1_r by lia.
      rewrite <- Z.div_div by (try apply Z.pow_pos_nonneg; lia).
      exact Hq.
Qed.

(** It stops at the first quotient of at most 28 digits. *)
Lemma excess_minimal (fuel : nat) (n : Z) :
  0 <= n -> 0 < excess fuel n ->
  10 ^ prec <= n / 10 ^ (excess fuel n - 1).
Proof.
  revert n. induction fuel as [|fuel IH]; intros n Hn; cbn [excess]; [lia|].
  destruct (Z.ltb_spec n (10 ^ prec)) as [Hlt|Hge]; [lia|]. intros _.
  replace (1 + excess fuel (n / 10) - 1) with (excess fuel (n / 10)) by lia.
  assert (H10 : 0 <= n / 10) by (apply Z.div_pos; lia).
  destruct (Z.eq_dec (excess fuel (n / 10)) 0) as [E|E].
  - rewrite E. change (10 ^ 0) with 1. rewrite Z.div_1_r. exact Hge.
  - assert (He : 0 <= excess fuel (n / 10)).
    { clear. generalize (n / 10). induction fuel as [|fuel IH]; intros m;
        cbn [excess]; [lia|].
      destruct (m <? 10 ^ prec); [lia|]. specialize (IH (m / 10)). lia. }
    specialize (IH (n / 10) H10 ltac:(lia)).
    replace (excess fuel (n / 10)) with (1 + (excess fuel (n / 10) - 1)) at 1
      by lia.
    rewrite Z.pow_add_r, Z.pow_1_r by lia.
    rewrite <- Z.div_div by (try apply Z.pow_pos_nonneg; lia).
    exact IH.
Qed.

Lemma log2_fuel (n : Z) :
  0 < n -> n < 10 ^ prec * 10 ^ Z.of_nat (Z.to_nat (Z.log2 n)).
Proof.
  intros Hn. pose proof (Z.log2_nonneg n) as HL.
  rewrite Z2Nat.id by exact HL.
  destruct (Z.log2_spec n Hn) as [_ Hlt].
  rewrite Z.pow_succ_r in Hlt by exact HL.
  assert (H2 : 2 ^ Z.log2 n <= 10 ^ Z.log2 n) by (apply Z.pow_le_mono_l; lia).
  assert (Hp : 0 < 10 ^ Z.log2 n) by (apply Z.pow_pos_nonneg; lia).
  assert (HP : 2 <= 10 ^ prec) by (vm_compute; discriminate).
  nia.
Qed.

Lemma round_half_even_bounds (n k : Z) :
  n / 10 ^ k <= round_half_even n k <= n / 10 ^ k + 1.
Proof.
  unfold round_half_even.
  destruct (_ || _)%bool; lia.
Qed.

(** Every sum and every product has at most 28 digits. *)
Lemma round_fits (d : t) : fits (round d).
Proof.
  unfold round.
  destruct (Z.ltb_spec (Z.abs (coef d)) (10 ^ prec)) as [Hlt|Hge]; [exact Hlt|].
  pose proof pow_prec_pos as HP.
  set (n := Z.abs (coef d)) in *.
  set (k := excess (Z.to_nat (Z.log2 n)) n).
  assert (Hn : 0 < n) by lia.
  destruct (excess_spec (Z.to_nat (Z.log2 n)) n) as [Hk Hq].
  { split; [lia | apply log2_fuel; exact Hn]. }
  fold k in Hk, Hq.
  pose proof (round_half_even_bounds n k) as Hb.
  assert (H0 : 0 <= n / 10 ^ k).
  { apply Z.div_pos; [lia | apply Z.pow_pos_nonneg; lia]. }
  assert (Hs : Z.abs (Z.sgn (coef d)) = 1) by (subst n; lia).
  destruct (Z.ltb_spec (round_half_even n k) (10 ^ prec)) as [Hlt'|Hge'];
    unfold fits; cbn [coef]; rewrite Z.abs_mul, Hs, Z.mul_1_l.
  - rewrite Z.abs_eq by lia. exact Hlt'.
  - assert (Hq10 : round_half_even n k / 10 <= 10 ^ prec / 10)
      by (apply Z.div_le_mono; lia).
    assert (H10 : 10 ^ prec / 10 < 10 ^ prec) by reflexivity.
    assert (0 <= round_half_even n k / 10) by (apply Z.div_pos; lia).
    rewrite Z.abs_eq; lia.
Qed.

Lemma add_fits (a b : t) : fits (add a b).
Proof. apply round_fits. Qed.

Lemma mul_fits (a b : t) : fits (mul a b).
Proof. apply round_fits. Qed.
End DecFacts.

(** ** The stable sort *)

Section SortedFacts.
Context {A : Type} (key : A -> Z).

Lemma insert_by_comm (x y : A) (l : list A) :
  key x <> key y ->
  insert_by key x (insert_by key y l) = insert_by key y (insert_by key x l).
Proof.
  intros Hne. induction l as [|z l IH]; simpl.
  - destruct (Z.leb_spec (key x) (key y)), (Z.leb_spec (key y) (key x));
      try reflexivity; lia.
  - destruct (Z.leb_spec (key y) (key z)), (Z.leb_spec (key x) (key z)); simpl;
      repeat match goal with
             | |- context [?a <=? ?b] => destruct (Z.leb_spec a b)
             end; try reflexivity; try lia.
    now rewrite IH.
Qed.

Lemma insert_by_Permutation (x : A) (l : list A) :
  Permutation (insert_by key x l) (x :: l).
Proof.
  induction l as [|y l IH]; simpl; [reflexivity|].
  destruct (key x <=? key y); [reflexivity|].
  rewrite IH. apply perm_swap.
Qed.

Lemma sorted_Permutation (l : list A) : Permutation (sorted key l) l.
Proof.
  induction l as [|x l IH]; simpl; [reflexivity|].
  rewrite insert_by_Permutation. now constructor.
Qed.

(** With pairwise distinct keys the input order does not matter. *)
Lemma sorted_Permutation_eq (l l' : list A) :
  Permutation l l' -> NoDup (List.map key l) -> sorted key l = sorted key l'.
Proof.
  induction 1 as [|x l l' Hp IH|x y l|l l' l'' Hp1 IH1 Hp2 IH2]; intros Hnd; simpl.
  - reflexivity.
  - inversion Hnd; subst. now rewrite IH.
  - apply insert_by_comm. inversion Hnd as [|? ? Hin _]; subst.
    intros Heq. apply Hin. rewrite Heq. left.
  - rewrite IH1 by assumption. apply IH2.
    now rewrite <- (Permutation_map key Hp1).
Qed.

Lemma insert_by_filter_same (k : Z) (x : A) (l : list A) :
  key x = k ->
  List.filter (fun a => key a =? k) (insert_by key x l)
  = x :: List.filter (fun a => key a =? k) l.
Proof.
  intros Hk. induction l as [|y l IH]; simpl.
  - now rewrite Hk, Z.eqb_refl.
  - destruct (Z.leb_spec (key x) (key y)); simpl.
    + now rewrite Hk, Z.eqb_refl.
    + destruct (Z.eqb_spec (key y) k); [lia|]. exact IH.
Qed.

Lemma insert_by_filter_other (k : Z) (x : A) (l : list A) :
  key x <> k ->
  List.filter (fun a => key a =? k) (insert_by key x l)
  = List.filter (fun a => key a =? k) l.
Proof.
  intros Hk. induction l as [|y l IH]; simpl.
  - destruct (Z.eqb_spec (key x) k); [contradiction|reflexivity].
  - destruct (key x <=? key y); simpl.
    + destruct (Z.eqb_spec (key x) k); [contradiction|reflexivity].
    + now rewrite IH.
Qed.

(** Stability: records with one key keep their input order. *)
Lemma sorted_stable (k : Z) (l : list A) :
  List.filter (fun a => key a =? k) (sorted key l)
  = List.filter (fun a => key a =? k) l.
Proof.
  induction l as [|x l IH]; simpl; [reflexivity|].
  destruct (Z.eqb_spec (key x) k) as [Hk|Hk].
  - rewrite insert_by_filter_same by assumption. now rewrite IH.
  - rewrite insert_by_filter_other by assumption. exact IH.
Qed.

Lemma insert_by_ascending (x : A) (l : list A) :
  StronglySorted (fun a b => key a <= key b) l ->
  StronglySorted (fun a b => key a <= key b) (insert_by key x l).
Proof.
  induction 1 as [|y l Hs IH Hall]; simpl.
  - repeat constructor.
  - destruct (Z.leb_spec (key x) (key y)).
    + constructor; [now constructor|]. constructor; [assumption|].
      eapply List.Forall_impl; [|exact Hall]. simpl. intros; lia.
    + constructor; [assumption|].
      eapply Permutation_Forall; [symmetry; apply insert_by_Permutation|].
      constructor; [lia|assumption].
Qed.

Lemma sorted_ascending (l : list A) :
  StronglySorted (fun a b => key a <= key b) (sorted key l).
Proof.
  induction l; simpl; [constructor|now apply insert_by_ascending].
Qed.
End SortedFacts.

(** ** The rate reducer *)

Section RateReducer.
Import Dec DecFacts.

Lemma Qsum_app (l1 l2 : list Q) : (Qsum (l1 ++ l2) == Qsum l1 + Qsum l2)%Q.
Proof.
  induction l1 as [|x l1 IH]; simpl; [ring|]. rewrite IH. ring.
Qed.

Lemma receipt_total_snoc (d : Receipt) (code : string) (p : Decimal) :
  (receipt_total (d ++ [(code, p)]) == receipt_total d + value p)%Q.
Proof.
  unfold receipt_total. rewrite List.map_app, Qsum_app. simpl. ring.
Qed.

Lemma lines_sum_snoc (d : Receipt) (code : string) (p : Decimal) :
  lines_sum (d ++ [(code, p)]) = add (lines_sum d) p.
Proof.
  unfold lines_sum. rewrite List.map_app, fold_left_app. reflexivity.
Qed.

Lemma fold_add_regular (rs : list TaxRate) (t : Decimal) (d : Receipt) :
  fold_left add_regular rs (t, d)
  = (fold_left add (List.map percentage rs) t, d ++ List.map entry rs).
Proof.
  revert t d. induction rs as [|r rs IH]; intros t d; simpl.
  - now rewrite app_nil_r.
  - rewrite IH. now rewrite <- app_assoc.
Qed.

(** The first loop leaves [regular_sum] and the lines of the regular
    records. *)
Lemma regular_loop (rates : list TaxRate) :
  fold_left add_regular (regular_of rates) (zero_00, [])
  = (regular_sum rates, List.map entry (regular_of rates)).
Proof. apply fold_add_regular. Qed.

Lemma value_fold_add (ps : list Decimal) (t : Decimal) :
  sum_fits ps t ->
  (value (fold_left add ps t) == value t + Qsum (List.map value ps))%Q.
Proof.
  revert t. induction ps as [|p ps IH]; intros t H; simpl; [ring|].
  destruct H as [H1 H2]. rewrite (IH _ H2), (value_add _ _ H1). ring.
Qed.

Lemma regular_total (rates : list TaxRate) :
  sum_fits (List.map percentage (regular_of rates)) zero_00 ->
  (value (regular_sum rates) == base_rate rates)%Q.
Proof.
  intros H. unfold regular_sum. rewrite (value_fold_add _ _ H), value_zero_00.
  unfold base_rate, rate_value. rewrite List.map_map. ring.
Qed.

(** The value of a compound line when nothing is rounded. *)
Lemma value_compound_line (c : TaxRate) (t : Decimal) :
  fits (exact_mul (percentage c) t) ->
  fits (exact_add (percentage c) (mul (percentage c) t)) ->
  (value (compound_line c t) == rate_value c + rate_value c * value t)%Q.
Proof.
  intros Hm Ha. unfold compound_line, rate_value.
  rewrite (value_add _ _ Ha), (value_mul _ _ Hm). reflexivity.
Qed.

(** Both loops keep the total equal to the lines added up in order. *)
Lemma add_regular_summed acc r :
  lines_sum (snd acc) = fst acc ->
  lines_sum (snd (add_regular acc r)) = fst (add_regular acc r).
Proof.
  destruct acc as [t d]. simpl. intros H. now rewrite lines_sum_snoc, H.
Qed.

Lemma add_compound_summed acc r :
  lines_sum (snd acc) = fst acc ->
  lines_sum (snd (add_compound acc r)) = fst (add_compound acc r).
Proof.
  destruct acc as [t d]. simpl. intros H. now rewrite lines_sum_snoc, H.
Qed.

Lemma fold_summed (step : Decimal * Receipt -> TaxRate -> Decimal * Receipt)
    (rs : list TaxRate) (acc : Decimal * Receipt) :
  (forall a r, lines_sum (snd a) = fst a ->
               lines_sum (snd (step a r)) = fst (step a r)) ->
  lines_sum (snd acc) = fst acc ->
  lines_sum (snd (fold_left step rs acc)) = fst (fold_left step rs acc).
Proof.
  intros Hstep. revert acc. induction rs as [|r rs IH]; intros acc H; simpl; auto.
Qed.

(** When no sum is rounded, the lines also add up to the total as exact
    numbers. *)
Lemma regular_in_step (rs : list TaxRate) (t : Decimal) (d : Receipt) :
  sum_fits (List.map percentage rs) t ->
  in_step (t, d) -> in_step (fold_left add_regular rs (t, d)).
Proof.
  revert t d. induction rs as [|r rs IH]; intros t d Hf H; simpl; [exact H|].
  destruct Hf as [Hf1 Hf2]. apply IH; [exact Hf2|].
  unfold in_step in *. simpl in *.
  rewrite receipt_total_snoc, (value_add _ _ Hf1), H. reflexivity.
Qed.

Lemma compound_in_step (cs : list TaxRate) (t : Decimal) (d : Receipt) :
  compound_fits cs t ->
  in_step (t, d) -> in_step (fold_left add_compound cs (t, d)).
Proof.
  revert t d. induction cs as [|c cs IH]; intros t d Hf H; simpl; [exact H|].
  destruct Hf as (_ & _ & Hf1 & Hf2). apply IH; [exact Hf2|].
  unfold in_step in *. simpl in *.
  rewrite receipt_total_snoc, (value_add _ _ Hf1), H. reflexivity.
Qed.

(** Without an override the result is the two loops run in sequence; the
    early return on an empty list agrees with them. *)
Lemma tax_rate_list_no_override (rates : list TaxRate) :
  List.filter override rates = [] ->
  tax_rate_list rates
  = fold_left add_compound (sorted compound_order (compound_of rates))
      (fold_left add_regular (regular_of rates) (zero_00, [])).
Proof.
  intros H. destruct rates as [|r rates]; [reflexivity|].
  unfold tax_rate_list. rewrite H. reflexivity.
Qed.

Lemma tax_rate_list_in_step (rates : list TaxRate) :
  List.filter override rates = [] -> no_rounding rates ->
  in_step (tax_rate_list rates).
Proof.
  intros Hov [Hs Hc]. rewrite (tax_rate_list_no_override rates Hov), regular_loop.
  apply compound_in_step; [exact Hc|].
  rewrite <- regular_loop. apply regular_in_step; [exact Hs|reflexivity].
Qed.

Lemma tax_rate_list_override_in_step (rates : list TaxRate) :
  List.filter override rates <> [] -> in_step (tax_rate_list rates).
Proof.
  intros Hov. destruct rates as [|r0 rates]; [now destruct Hov|].
  unfold tax_rate_list.
  destruct (List.filter override (r0 :: rates)) as [|r ovr]; [now destruct Hov|].
  unfold in_step, receipt_total. simpl. ring.
Qed.

Lemma filter_override_first (pre post : list TaxRate) (r : TaxRate) :
  Forall (fun x => override x = false) pre -> override r = true ->
  List.filter override (pre ++ r :: post) = r :: List.filter override post.
Proof.
  intros Hpre Hr. induction Hpre as [|x pre Hx _ IH]; simpl.
  - now rewrite Hr.
  - now rewrite Hx.
Qed.

(** When nothing is rounded, the compound loop multiplies [1 + total] by
    [1 + rate] at each record. *)
Lemma compound_loop_product (cs : list TaxRate) (t : Decimal) (d : Receipt) :
  compound_fits cs t ->
  (1 + value (fst (fold_left add_compound cs (t, d)))
   == (1 + value t) * Qprod (List.map (fun c => 1 + rate_value c) cs))%Q.
Proof.
  revert t d. induction cs as [|c cs IH]; intros t d Hf; simpl.
  - ring.
  - destruct Hf as (Hm & Ha & Ht & Hf). rewrite (IH _ _ Hf).
    rewrite (value_add _ _ Ht), (value_add _ _ Ha), (value_mul _ _ Hm).
    unfold rate_value. ring.
Qed.

(** The result for a single compound record, and its value when nothing
    is rounded. *)
Lemma single_compound_result (rates : list TaxRate) (c : TaxRate) :
  List.filter override rates = [] ->
  compound_of rates = [c] ->
  tax_rate_list rates
  = (add (regular_sum rates) (compound_line c (regular_sum rates)),
     List.map entry (regular_of rates)
     ++ [(taxCode c, compound_line c (regular_sum rates))]).
Proof.
  intros Hov Hc.
  rewrite (tax_rate_list_no_override rates Hov), Hc, regular_loop. reflexivity.
Qed.

Lemma single_compound_values (rates : list TaxRate) (c : TaxRate) :
  List.filter override rates = [] ->
  compound_of rates = [c] ->
  no_rounding rates ->
  (value (compound_line c (regular_sum rates))
   == rate_value c + rate_value c * base_rate rates)%Q
  /\ (value (fst (tax_rate_list rates))
      == base_rate rates + rate_value c + rate_value c * base_rate rates)%Q.
Proof.
  intros Hov Hc [Hs Hf]. rewrite Hc in Hf. destruct Hf as (Hm & Ha & Ht & _).
  pose proof (regular_total rates Hs) as HB.
  pose proof (value_compound_line c _ Hm Ha) as Hl.
  rewrite (single_compound_result rates c Hov Hc). simpl fst.
  fold (compound_line c (regular_sum rates)) in Ht.
  rewrite (value_add _ _ Ht), Hl, HB. split; ring.
Qed.

Lemma compound_loop_codes (cs : list TaxRate) (t : Decimal) (d : Receipt) :
  List.map fst (snd (fold_left add_compound cs (t, d)))
  = List.map fst d ++ List.map taxCode cs.
Proof.
  revert t d. induction cs as [|c cs IH]; intros t d; simpl.
  - now rewrite app_nil_r.
  - rewrite IH, List.map_app. simpl. now rewrite <- app_assoc.
Qed.
End RateReducer.

(** C2. When a record has [override] set, the first such record in input
    order decides the whole result: its percentage is the total rate and the
    breakdown is the single line (its code, its percentage), whatever else
    the list holds. *)
Theorem tax_rate_list_override (pre post : list TaxRate) (r : TaxRate) :
  Forall (fun x => override x = false) pre ->
  override r = true ->
  tax_rate_list (pre ++ r :: post)
  = (percentage r, [(taxCode r, percentage r)]).
Proof.
  intros Hpre Hr. unfold tax_rate_list.
  rewrite (filter_override_first pre post r Hpre Hr).
  destruct pre; reflexivity.
Qed.

Lemma tax_rate_list_override_witness :
  tax_rate_list
    ([Examples.GST] ++ Examples.rate "HST" (Examples.pct 13) false 0 true
       :: [Examples.PST; Examples.rate "XST" (Examples.pct 2) false 0 true])
  = (Examples.pct 13, [("HST", Examples.pct 13)]).
Proof.
  apply (tax_rate_list_override [Examples.GST]).
  - repeat constructor.
  - reflexivity.
Defined.

(** C3 as stated: the compound line was claimed to be C + C*B as an exact
    number, with no internal rounding. For a regular and a compound record
    of 0.123456789012345 each, C + C*B has thirty digits; the line the code
    returns is that number rounded to twenty-eight. *)
Lemma single_compound_rounding_counterexample :
  tax_rate_list [LongExamples.A15; LongExamples.B15]
  = (Dec.mk 2621551567779286691205623990 (-28),
     [("A", Dec.mk 123456789012345 (-15));
      ("B", Dec.mk 1386983677655836691205623990 (-28))])
  /\ ~ (Dec.value (Dec.mk 1386983677655836691205623990 (-28))
        == rate_value LongExamples.B15
           + rate_value LongExamples.B15
             * base_rate [LongExamples.A15; LongExamples.B15])%Q.
Proof.
  split; [vm_compute; reflexivity|].
  apply Qeq_bool_neq. vm_compute. reflexivity.
Qed.

(** C3 (amended). With no override and exactly one compound record of
    percentage C over non-compound records whose running total is B, the
    compound line comes last on the receipt with the percentage C + C*B and
    the total rate is B + (C + C*B), every sum and product being a Decimal
    operation, rounded to 28 significant digits. When no intermediate result
    has more than 28 digits, these are the exact numbers C + C*B and
    B + C + C*B. *)
Theorem tax_rate_list_single_compound (rates : list TaxRate) (c : TaxRate) :
  List.filter override rates = [] ->
  compound_of rates = [c] ->
  tax_rate_list rates
  = (Dec.add (regular_sum rates) (compound_line c (regular_sum rates)),
     List.map entry (regular_of rates)
     ++ [(taxCode c, compound_line c (regular_sum rates))])
  /\ (no_rounding rates ->
      (Dec.value (compound_line c (regular_sum rates))
       == rate_value c + rate_value c * base_rate rates)%Q
      /\ (Dec.value (fst (tax_rate_list rates))
          == base_rate rates + rate_value c + rate_value c * base_rate rates)%Q).
Proof.
  intros Hov Hc. split.
  - now apply single_compound_result.
  - now apply single_compound_values.
Qed.

Lemma tax_rate_list_single_compound_witness :
  tax_rate_list [Examples.GST; Examples.PST]
  = (Dec.mk 1235 (-4), [("GST", Dec.mk 5 (-2)); ("PST", Dec.mk 735 (-4))])
  /\ (Dec.value (Dec.mk 735 (-4)) == (7 # 100) + (7 # 100) * (5 # 100))%Q
  /\ (Dec.value (Dec.mk 1235 (-4))
      == (5 # 100) + (7 # 100) + (7 # 100) * (5 # 100))%Q.
Proof.
  destruct (tax_rate_list_single_compound [Examples.GST; Examples.PST] Examples.PST)
    as [Heq Hexact]; [reflexivity | reflexivity |].
  split; [exact Heq|].
  destruct Hexact as [Hl Ht]; [vm_compute; repeat split|].
  split; [rewrite Hl | rewrite Ht]; reflexivity.
Defined.

(** C5 as stated: the percentages of the breakdown were claimed to sum
    exactly to the total for every input. With a regular six-place rate and
    four compound ones, the last line and the total are both rounded to 28
    digits and the exact sum of the lines is another number than the total. *)
Lemma breakdown_sum_counterexample :
  List.filter override
    [LongExamples.base6; LongExamples.first6; LongExamples.second6;
     LongExamples.third6; LongExamples.fourth6] = []
  /\ ~ (receipt_total
          (snd (tax_rate_list
                  [LongExamples.base6; LongExamples.first6; LongExamples.second6;
                   LongExamples.third6; LongExamples.fourth6]))
        == Dec.value
             (fst (tax_rate_list
                     [LongExamples.base6; LongExamples.first6; LongExamples.second6;
                      LongExamples.third6; LongExamples.fourth6])))%Q.
Proof.
  split; [reflexivity|].
  apply Qeq_bool_neq. vm_compute. reflexivity.
Qed.

(** C5 (amended). When no override applies, the percentages on the returned
    breakdown, added one after the other as Decimals from 0.00 (each sum
    rounded to 28 significant digits), give the returned total rate. As exact
    numbers the percentages sum to the total whenever an override applies or
    no intermediate result has more than 28 digits. *)
Theorem tax_rate_list_breakdown_sums (rates : list TaxRate) :
  (List.filter override rates = [] ->
   lines_sum (snd (tax_rate_list rates)) = fst (tax_rate_list rates))
  /\ (List.filter override rates <> [] \/ no_rounding rates ->
      (receipt_total (snd (tax_rate_list rates))
       == Dec.value (fst (tax_rate_list rates)))%Q).
Proof.
  split.
  - intros Hov. rewrite (tax_rate_list_no_override rates Hov).
    apply fold_summed; [apply add_compound_summed|].
    apply fold_summed; [apply add_regular_summed|].
    reflexivity.
  - intros H.
    destruct (List.filter override rates) as [|r ovr] eqn:Hov.
    + destruct H as [H|H]; [now destruct H|].
      apply tax_rate_list_in_step; assumption.
    + apply tax_rate_list_override_in_step. rewrite Hov. discriminate.
Qed.

(** ** Order of the compound records *)

Section CompoundOrder.
Import Dec DecFacts.

Lemma filter_nil_iff {A} (f : A -> bool) (l : list A) :
  List.filter f l = [] <-> (forall x, In x l -> f x = false).
Proof.
  induction l as [|y l IH]; simpl.
  - split; [intros _ x []|reflexivity].
  - destruct (f y) eqn:Hy.
    + split; [discriminate|]. intros H. rewrite (H y) in Hy by now left.
      discriminate.
    + rewrite IH. split.
      * intros H x [->|Hx]; auto.
      * intros H x Hx. apply H. now right.
Qed.

Lemma Qprod_Permutation (l l' : list Q) :
  Permutation l l' -> (Qprod l == Qprod l')%Q.
Proof.
  induction 1 as [|x l l' _ IH|x y l|l l' l'' _ IH1 _ IH2]; simpl.
  - reflexivity.
  - now rewrite IH.
  - ring.
  - now rewrite IH1.
Qed.

(** A list whose two groups come from [rates] has no override either. *)
Lemma no_override_regrouped (rates rates' : list TaxRate) :
  List.filter override rates = [] ->
  regular_of rates' = regular_of rates ->
  Permutation (compound_of rates') (compound_of rates) ->
  List.filter override rates' = [].
Proof.
  intros Hov Hreg Hcmp. rewrite filter_nil_iff in *. intros x Hx.
  apply Hov. destruct (compound x) eqn:Hc.
  - assert (In x (compound_of rates')) as Hin
      by (apply List.filter_In; auto).
    apply (Permutation_in _ Hcmp), List.filter_In in Hin. tauto.
  - assert (In x (regular_of rates')) as Hin
      by (apply List.filter_In; rewrite Hc; auto).
    rewrite Hreg in Hin. apply List.filter_In in Hin. tauto.
Qed.

(** When nothing is rounded, [1 + total] is the product of [1 + base] and
    every [1 + compound]. *)
Lemma total_closed_form (rates : list TaxRate) :
  List.filter override rates = [] -> no_rounding rates ->
  (1 + value (fst (tax_rate_list rates))
   == (1 + base_rate rates)
      * Qprod (List.map (fun c => 1 + rate_value c) (compound_of rates)))%Q.
Proof.
  intros Hov [Hs Hc]. rewrite (tax_rate_list_no_override rates Hov), regular_loop.
  rewrite (compound_loop_product _ _ _ Hc), (regular_total rates Hs).
  apply Qmult_comp; [reflexivity|].
  apply Qprod_Permutation, Permutation_map, sorted_Permutation.
Qed.

(** The total for two compound records taken in the order [c1], [c2]. *)
Lemma two_compound_total (rates : list TaxRate) (c1 c2 : TaxRate) :
  List.filter override rates = [] ->
  sorted compound_order (compound_of rates) = [c1; c2] ->
  tax_rate_list rates
  = (add (add (regular_sum rates) (compound_line c1 (regular_sum rates)))
       (compound_line c2
          (add (regular_sum rates) (compound_line c1 (regular_sum rates)))),
     List.map entry (regular_of rates)
     ++ [(taxCode c1, compound_line c1 (regular_sum rates));
         (taxCode c2,
          compound_line c2
            (add (regular_sum rates) (compound_line c1 (regular_sum rates))))]).
Proof.
  intros Hov Hs.
  rewrite (tax_rate_list_no_override rates Hov), Hs, regular_loop.
  simpl. unfold compound_line. now rewrite <- app_assoc.
Qed.
Lemma sorted_two (cs : list TaxRate) (c1 c2 : TaxRate) :
  Permutation cs [c1; c2] -> compound_order c1 < compound_order c2 ->
  sorted compound_order cs = [c1; c2].
Proof.
  intros Hp Hlt.
  rewrite (sorted_Permutation_eq compound_order _ _ Hp).
  - simpl. destruct (Z.leb_spec (compound_order c1) (compound_order c2));
      [reflexivity|lia].
  - rewrite (Permutation_map compound_order Hp). simpl.
    apply NoDup_cons. split; [|apply NoDup_singleton].
    intros Hin. apply list_elem_of_singleton in Hin. lia.
Qed.

(** The total for two compound records when nothing is rounded. *)
Lemma two_compound_value (rates : list TaxRate) (c1 c2 : TaxRate) :
  List.filter override rates = [] ->
  Permutation (compound_of rates) [c1; c2] ->
  no_rounding rates ->
  (value (fst (tax_rate_list rates))
   == base_rate rates
      + (rate_value c1 + rate_value c1 * base_rate rates)
      + (rate_value c2
         + rate_value c2
           * (base_rate rates
              + (rate_value c1 + rate_value c1 * base_rate rates))))%Q.
Proof.
  intros Hov Hp Hnr.
  pose proof (total_closed_form rates Hov Hnr) as Hcf.
  assert (HP : (Qprod (List.map (fun c => 1 + rate_value c) (compound_of rates))
                == (1 + rate_value c1) * ((1 + rate_value c2) * 1))%Q).
  { rewrite (Qprod_Permutation _ _ (Permutation_map _ Hp)). reflexivity. }
  rewrite HP in Hcf.
  apply (Qplus_inj_l _ _ 1). rewrite Hcf. ring.
Qed.
End CompoundOrder.

(** C4 as stated: the total for two compound records was claimed to be the
    exact number B + (C1 + C1*B) + (C2 + C2*(B + C1 + C1*B)). Over a base of
    0.1649208433728283673311740157 with compound rates of 7% and 8% that
    number has more than 28 digits, and the code returns a rounded total. *)
Lemma compound_order_rounding_counterexample :
  fst (tax_rate_list [TiedExamples.QST; LongExamples.GST28; Examples.PST])
  = Dec.mk 3461825266016404612879046925 (-28)
  /\ ~ (Dec.value
          (fst (tax_rate_list [TiedExamples.QST; LongExamples.GST28; Examples.PST]))
        == rate_value LongExamples.GST28
           + (rate_value Examples.PST
              + rate_value Examples.PST * rate_value LongExamples.GST28)
           + (rate_value TiedExamples.QST
              + rate_value TiedExamples.QST
                * (rate_value LongExamples.GST28
                   + (rate_value Examples.PST
                      + rate_value Examples.PST * rate_value LongExamples.GST28))))%Q.
Proof.
  split; [vm_compute; reflexivity|].
  apply Qeq_bool_neq. vm_compute. reflexivity.
Qed.

(** C4 (amended). With no override and pairwise distinct [compound_order]
    values, the result does not depend on where the compound records stand
    in the input: they are taken in ascending [compound_order], each
    compounding on the running total. For two compound records C1 before C2
    over the running total B of the non-compound records the total is
    (B + (C1 + C1*B)) + (C2 + C2*(B + (C1 + C1*B))), every sum and product
    being a Decimal operation, rounded to 28 significant digits; when no
    intermediate result has more than 28 digits, it is that number exactly. *)
Theorem tax_rate_list_compound_order (rates rates' : list TaxRate) :
  List.filter override rates = [] ->
  regular_of rates' = regular_of rates ->
  Permutation (compound_of rates') (compound_of rates) ->
  NoDup (List.map compound_order (compound_of rates)) ->
  tax_rate_list rates' = tax_rate_list rates
  /\ (exists cs : list TaxRate,
        Permutation cs (compound_of rates)
        /\ StronglySorted (fun a b => compound_order a <= compound_order b) cs
        /\ tax_rate_list rates
           = fold_left add_compound cs
               (fold_left add_regular (regular_of rates) (Dec.zero_00, [])))
  /\ (forall c1 c2 : TaxRate,
        Permutation (compound_of rates) [c1; c2] ->
        compound_order c1 < compound_order c2 ->
        List.map fst (snd (tax_rate_list rates))
        = List.map taxCode (regular_of rates) ++ [taxCode c1; taxCode c2]
        /\ fst (tax_rate_list rates)
           = Dec.add
               (Dec.add (regular_sum rates) (compound_line c1 (regular_sum rates)))
               (compound_line c2
                  (Dec.add (regular_sum rates)
                     (compound_line c1 (regular_sum rates))))
        /\ (no_rounding rates ->
            (Dec.value (fst (tax_rate_list rates))
             == base_rate rates
                + (rate_value c1 + rate_value c1 * base_rate rates)
                + (rate_value c2
                   + rate_value c2
                     * (base_rate rates
                        + (rate_value c1 + rate_value c1 * base_rate rates))))%Q)).
Proof.
  intros Hov Hreg Hcmp Hnd.
  pose proof (no_override_regrouped rates rates' Hov Hreg Hcmp) as Hov'.
  split; [|split].
  - rewrite (tax_rate_list_no_override rates Hov),
      (tax_rate_list_no_override rates' Hov'), Hreg.
    f_equal. symmetry. apply sorted_Permutation_eq; [now symmetry|assumption].
  - exists (sorted compound_order (compound_of rates)).
    split; [apply sorted_Permutation|].
    split; [apply sorted_ascending|].
    apply tax_rate_list_no_override, Hov.
  - intros c1 c2 Hp Hlt.
    assert (Hs : sorted compound_order (compound_of rates) = [c1; c2]).
    { rewrite (sorted_Permutation_eq compound_order _ _ Hp Hnd).
      simpl. destruct (Z.leb_spec (compound_order c1) (compound_order c2));
        [reflexivity|lia]. }
    pose proof (two_compound_total rates c1 c2 Hov Hs) as Heq.
    split; [|split].
    + rewrite Heq. simpl snd. rewrite List.map_app, List.map_map. reflexivity.
    + rewrite Heq. reflexivity.
    + now apply two_compound_value.
Qed.

Lemma tax_rate_list_compound_order_witness :
  tax_rate_list [TiedExamples.QST; Examples.GST; Examples.PST]
  = tax_rate_list [Examples.GST; Examples.PST; TiedExamples.QST]
  /\ fst (tax_rate_list [Examples.GST; Examples.PST; TiedExamples.QST])
     = Dec.mk 213380 (-6)
  /\ (Dec.value
        (fst (tax_rate_list [Examples.GST; Examples.PST; TiedExamples.QST]))
      == (5 # 100) + ((7 # 100) + (7 # 100) * (5 # 100))
         + ((8 # 100) + (8 # 100) * ((5 # 100) + ((7 # 100) + (7 # 100) * (5 # 100)))))%Q.
Proof.
  destruct (tax_rate_list_compound_order
              [Examples.GST; Examples.PST; TiedExamples.QST]
              [TiedExamples.QST; Examples.GST; Examples.PST])
    as (Heq & _ & Htwo).
  - reflexivity.
  - reflexivity.
  - apply perm_swap.
  - apply NoDup_cons. split; [|apply NoDup_singleton].
    intros Hin. inversion Hin as [|? ? ? Hin']. inversion Hin'.
  - split; [exact Heq|].
    destruct (Htwo Examples.PST TiedExamples.QST) as (_ & Ht & Hv).
    + reflexivity.
    + reflexivity.
    + split; [rewrite Ht; vm_compute; reflexivity|].
      rewrite Hv; [reflexivity|]. vm_compute. repeat split.
Defined.

(** C10. With no override, the breakdown lists the non-compound lines and
    then one line per compound record in sorted order, and the sort is
    stable: the records that share a [compound_order] value keep their
    relative input order. The result is a function of the input sequence
    that is not invariant under a permutation of tied records: for a
    six-place base rate and four six-place compound rates that share one
    [compound_order], taking the four in the opposite order changes both the
    total and the breakdown. *)
Theorem tax_rate_list_tied_compound_order (rates : list TaxRate) :
  List.filter override rates = [] ->
  List.map fst (snd (tax_rate_list rates))
  = List.map taxCode (regular_of rates)
    ++ List.map taxCode (sorted compound_order (compound_of rates))
  /\ (forall k : Z,
        List.filter (fun r => compound_order r =? k)
          (sorted compound_order (compound_of rates))
        = List.filter (fun r => compound_order r =? k) (compound_of rates))
  /\ (exists (base : TaxRate) (tied tied' : list TaxRate),
        override base = false /\ compound base = false
        /\ Forall (fun r => override r = false /\ compound r = true
                            /\ compound_order r = 1) tied
        /\ Permutation tied' tied
        /\ fst (tax_rate_list (base :: tied')) <> fst (tax_rate_list (base :: tied))
        /\ snd (tax_rate_list (base :: tied')) <> snd (tax_rate_list (base :: tied))).
Proof.
  intros Hov. split; [|split].
  - rewrite (tax_rate_list_no_override rates Hov), fold_add_regular,
      compound_loop_codes.
    simpl. now rewrite List.map_map.
  - intros k. apply sorted_stable.
  - exists LongExamples.base6,
      [LongExamples.tied1; LongExamples.tied2; LongExamples.tied3;
       LongExamples.tied4],
      [LongExamples.tied4; LongExamples.tied3; LongExamples.tied2;
       LongExamples.tied1].
    split; [reflexivity|]. split; [reflexivity|].
    split; [repeat constructor|].
    split; [apply Permutation_sym, (Permutation_rev [_; _; _; _])|].
    split; vm_compute; discriminate.
Qed.

Lemma tax_rate_list_tied_compound_order_witness :
  List.map fst
    (snd (tax_rate_list [Examples.GST; TiedExamples.tied_b; TiedExamples.tied_a]))
  = ["GST"; "QST"; "PST"]
  /\ fst (tax_rate_list
            [LongExamples.base6; LongExamples.tied1; LongExamples.tied2;
             LongExamples.tied3; LongExamples.tied4])
     = Dec.mk 3731987561464819170610160663 (-27)
  /\ fst (tax_rate_list
            [LongExamples.base6; LongExamples.tied4; LongExamples.tied3;
             LongExamples.tied2; LongExamples.tied1])
     = Dec.mk 3731987561464819170610160662 (-27).
Proof.
  destruct (tax_rate_list_tied_compound_order
              [Examples.GST; TiedExamples.tied_b; TiedExamples.tied_a])
    as (Hcodes & _ & _).
  - reflexivity.
  - split; [exact Hcodes|]. split; vm_compute; reflexivity.
Defined.

(** ** The computation monad *)

Section MonadFacts.
Context {A B : Type}.

Lemma log_blind_ret (a : A) : log_blind (ret a).
Proof. intros lg lg'. reflexivity. Qed.

Lemma log_blind_raise (e : Exn) : log_blind (@raise A e).
Proof. intros lg lg'. reflexivity. Qed.

Lemma log_blind_log (lvl : Level) (m : string) : log_blind (log lvl m).
Proof. intros lg lg'. reflexivity. Qed.

Lemma log_blind_bind (m : M A) (k : A -> M B) :
  log_blind m -> (forall a, log_blind (k a)) -> log_blind (bind m k).
Proof.
  intros Hm Hk lg lg'. unfold bind. specialize (Hm lg lg').
  destruct (m lg) as [[a|e] l1], (m lg') as [[a'|e'] l1']; simpl in Hm;
    try discriminate; inversion Hm; subst; [apply Hk|reflexivity].
Qed.

Lemma log_blind_try_except (body : M A) (caught : Exn -> bool) (handler : M A) :
  log_blind body -> log_blind handler ->
  log_blind (try_except body caught handler).
Proof.
  intros Hb Hh lg lg'. unfold try_except. specialize (Hb lg lg').
  destruct (body lg) as [[a|e] l1], (body lg') as [[a'|e'] l1']; simpl in Hb;
    try discriminate; inversion Hb; subst; [reflexivity|].
  destruct (caught e'); [apply Hh|reflexivity].
Qed.

Lemma log_blind_objects_get (m : Model) (table : list A) (p : A -> bool) :
  log_blind (objects_get m table p).
Proof.
  unfold objects_get. destruct (List.find p table);
    [apply log_blind_ret|apply log_blind_raise].
Qed.

Lemma bind_Return (m : M A) (k : A -> M B) lg a lg1 :
  m lg = (Return a, lg1) -> bind m k lg = k a lg1.
Proof. intros H. unfold bind. now rewrite H. Qed.

Lemma bind_Raise (m : M A) (k : A -> M B) lg e lg1 :
  m lg = (Raise e, lg1) -> bind m k lg = (Raise e, lg1).
Proof. intros H. unfold bind. now rewrite H. Qed.

Lemma never_raises_ret (a : A) : never_raises (ret a).
Proof. intros lg. now exists a, lg. Qed.

Lemma never_raises_bind (m : M A) (k : A -> M B) :
  never_raises m -> (forall a, never_raises (k a)) -> never_raises (bind m k).
Proof.
  intros Hm Hk lg. unfold bind. destruct (Hm lg) as (a & l1 & ->). apply Hk.
Qed.

(** A lookup whose [DoesNotExist] is handled on the spot. *)
Lemma try_get (m : Model) (table : list A) (p : A -> bool) (k : A -> M B)
    (handler : M B) (lg : list LogRecord) :
  (forall a, never_raises (k a)) ->
  try_except (bind (objects_get m table p) k) (is_DoesNotExist m) handler lg
  = match List.find p table with
    | Some a => k a lg
    | None => handler lg
    end.
Proof.
  intros Hk. unfold try_except, bind, objects_get.
  destruct (List.find p table) as [a|]; simpl.
  - destruct (Hk a lg) as (b & l1 & ->). reflexivity.
  - now destruct m.
Qed.

Lemma never_raises_try_get (m : Model) (table : list A) (p : A -> bool)
    (k : A -> M B) (handler : M B) :
  (forall a, never_raises (k a)) -> never_raises handler ->
  never_raises (try_except (bind (objects_get m table p) k) (is_DoesNotExist m) handler).
Proof.
  intros Hk Hh lg. rewrite try_get by assumption.
  destruct (List.find p table); [apply Hk|apply Hh].
Qed.
End MonadFacts.

Lemma log_blind_for_each {A B} (xs : list B) (body : A -> B -> M A) (acc : A) :
  (forall a x, log_blind (body a x)) -> log_blind (for_each xs body acc).
Proof.
  intros Hbody. revert acc. induction xs as [|x xs IH]; intros acc; simpl.
  - apply log_blind_ret.
  - apply log_blind_bind; [apply Hbody|exact IH].
Qed.

Lemma never_raises_log (lvl : Level) (m : string) : never_raises (log lvl m).
Proof. intros lg. now eexists tt, _. Qed.

(** Steps that close goals about [log_blind] and [never_raises] terms built
    from the monad's operations. *)
Ltac monad_step :=
  first
    [ apply log_blind_ret | apply log_blind_raise | apply log_blind_log
    | apply log_blind_objects_get
    | apply log_blind_bind; [|intros ?]
    | apply log_blind_try_except
    | apply never_raises_ret | apply never_raises_log
    | apply never_raises_try_get; [intros ?|]
    | apply never_raises_bind; [|intros ?]
    | match goal with
      | |- log_blind (match ?x with _ => _ end) => destruct x
      | |- never_raises (match ?x with _ => _ end) => destruct x
      end ].

Section LocationFacts.
Context (db : Store).

Lemma _get_location_never_raises (self : Processor) :
  never_raises (_get_location db self).
Proof. unfold _get_location. repeat monad_step. Qed.

Lemma _get_location_log_blind (self : Processor) :
  log_blind (_get_location db self).
Proof. unfold _get_location. repeat monad_step. Qed.
End LocationFacts.

(** ** The rate fetcher *)

Section RateFetcher.
Context (db : Store).

Lemma try_get_bare {A} (m : Model) (table : list A) (p : A -> bool)
    (handler : M A) (lg : list LogRecord) :
  try_except (objects_get m table p) (is_DoesNotExist m) handler lg
  = match List.find p table with
    | Some a => (Return a, lg)
    | None => handler lg
    end.
Proof.
  unfold try_except, objects_get. destruct (List.find p table); [reflexivity|].
  now destruct m.
Qed.

Lemma get_rate_log_blind self taxclass area country get_object :
  log_blind (get_rate db self taxclass area country get_object).
Proof.
  unfold get_rate, taxclass_by_name.
  repeat first [apply _get_location_log_blind | monad_step].
Qed.

(** The first stage of [get_rate], which settles area and country. *)
Lemma location_stage_never_raises self
    (area : option AdminArea) (country : option Country) :
  never_raises
    (if negb (is_Some_b area || is_Some_b country)
     then _get_location db self else ret (area, country)).
Proof.
  destruct (negb _); [apply _get_location_never_raises|apply never_raises_ret].
Qed.

Lemma get_rate_object_never_raises self tc area country get_object :
  never_raises (get_rate db self (TcObj tc) area country get_object).
Proof.
  unfold get_rate. simpl effective_taxclass.
  repeat first [apply location_stage_never_raises | monad_step].
Qed.

Lemma get_rate_name_found self taxclass name tc area country get_object :
  effective_taxclass taxclass = inl name ->
  List.find (fun c => iexact (title c) name) (TaxClass_objects db) = Some tc ->
  never_raises (get_rate db self taxclass area country get_object).
Proof.
  intros Heff Hfind. unfold get_rate. rewrite Heff.
  apply never_raises_bind; [apply location_stage_never_raises|].
  intros [a c]. apply never_raises_bind.
  - intros lg. unfold taxclass_by_name. rewrite try_get_bare, Hfind. eauto.
  - intros tc'. repeat monad_step.
Qed.

Lemma get_rate_name_missing self taxclass name area country get_object lg :
  effective_taxclass taxclass = inl name ->
  List.find (fun c => iexact (title c) name) (TaxClass_objects db) = None ->
  exists lg',
    get_rate db self taxclass area country get_object lg
    = (Raise (ImproperlyConfigured name), lg').
Proof.
  intros Heff Hfind. unfold get_rate. rewrite Heff. unfold bind at 1.
  destruct (location_stage_never_raises self area country lg)
    as ([a c] & lg1 & ->).
  unfold bind at 1, taxclass_by_name. rewrite try_get_bare, Hfind.
  now exists lg1.
Qed.
End RateFetcher.

(** C8 (amended). [get_rate] raises [ImproperlyConfigured] exactly when it
    looks a tax class up by name and no class title matches that name
    (letter case aside), where a missing or empty [taxclass] argument stands
    for the name "Default"; with a class object, or a name that is found, it
    returns, and it raises nothing else. *)
Theorem get_rate_improperly_configured (db : Store) (self : Processor)
    (taxclass : TaxClassArg) (area : option AdminArea) (country : option Country)
    (get_object : bool) (lg : list LogRecord) :
  ((exists e, fst (get_rate db self taxclass area country get_object lg) = Raise e)
   <-> exists name,
         effective_taxclass taxclass = inl name
         /\ List.find (fun c => iexact (title c) name) (TaxClass_objects db) = None)
  /\ (forall e,
        fst (get_rate db self taxclass area country get_object lg) = Raise e ->
        exists name,
          effective_taxclass taxclass = inl name /\ e = ImproperlyConfigured name).
Proof.
  destruct (effective_taxclass taxclass) as [name|tc] eqn:Heff.
  - destruct (List.find (fun c => iexact (title c) name) (TaxClass_objects db))
      as [tc|] eqn:Hfind.
    + destruct (get_rate_name_found db self taxclass name tc area country
                  get_object Heff Hfind lg) as (v & lg' & Hret).
      rewrite Hret. simpl. split; [split|].
      * intros [e He]. discriminate.
      * intros (name' & Hn & Hnone). injection Hn as <-. congruence.
      * intros e He. discriminate.
    + destruct (get_rate_name_missing db self taxclass name area country
                  get_object lg Heff Hfind) as (lg' & Hraise).
      rewrite Hraise. simpl. split; [split|].
      * intros _. now exists name.
      * intros _. eauto.
      * intros e He. exists name. split; congruence.
  - assert (exists tc', taxclass = TcObj tc') as [tc' ->].
    { destruct taxclass as [|s|tc']; simpl in Heff;
        [discriminate|destruct (nonempty s); discriminate|eauto]. }
    destruct (get_rate_object_never_raises db self tc' area country get_object lg)
      as (v & lg' & Hret).
    rewrite Hret. simpl. split; [split|].
    + intros [e He]. discriminate.
    + intros (name & Hn & _). discriminate.
    + intros e He. discriminate.
Qed.

(** C8 as stated: called without a tax class, which is no name, [get_rate]
    still raises [ImproperlyConfigured] when no class is titled "Default". *)
Lemma get_rate_default_counterexample :
  fst (get_rate Examples.bare_store Examples.processor TcNone None None false [])
  = Raise (ImproperlyConfigured "Default")
  /\ (forall name : string, TcNone <> TcName name).
Proof. split; [reflexivity|discriminate]. Qed.

(** ** Looking a tax class up by name *)

Section ClassLookup.
Context (db : Store).

Lemma find_ext {A} (f g : A -> bool) (l : list A) :
  (forall a, f a = g a) -> List.find f l = List.find g l.
Proof.
  intros H. induction l as [|x l IH]; simpl; [reflexivity|].
  rewrite H, IH. reflexivity.
Qed.

Lemma iexact_lower (a n1 n2 : string) :
  lower n1 = lower n2 -> iexact a n1 = iexact a n2.
Proof. unfold iexact. now intros ->. Qed.

Lemma nonempty_lower (n1 n2 : string) :
  lower n1 = lower n2 -> nonempty n1 = nonempty n2.
Proof. destruct n1, n2; simpl; congruence. Qed.

Lemma taxclass_by_name_lower (n1 n2 : string) :
  lower n1 = lower n2 -> taxclass_by_name db n1 = taxclass_by_name db n2.
Proof.
  intros H. unfold taxclass_by_name, objects_get.
  rewrite (find_ext (fun c => iexact (title c) n1) (fun c => iexact (title c) n2));
    [reflexivity|].
  intros c. now apply iexact_lower.
Qed.

(** Two spellings of one name give [get_rate] the same class. *)
Lemma get_rate_name_lower self n1 n2 area country get_object lg v lg' :
  lower n1 = lower n2 ->
  get_rate db self (TcName n1) area country get_object lg = (Return v, lg') ->
  get_rate db self (TcName n2) area country get_object lg = (Return v, lg').
Proof.
  intros Hl. unfold get_rate. simpl effective_taxclass.
  rewrite (nonempty_lower n1 n2 Hl).
  destruct (nonempty n2); [|exact (fun H => H)].
  destruct (location_stage_never_raises db self area country lg)
    as ([a c] & lg1 & Hloc).
  rewrite !(bind_Return _ _ _ _ _ Hloc). cbn iota.
  pose proof (try_get_bare MTaxClass (TaxClass_objects db)
                (fun c => iexact (title c) n1)
                (raise (ImproperlyConfigured n1)) lg1) as H1.
  pose proof (try_get_bare MTaxClass (TaxClass_objects db)
                (fun c => iexact (title c) n2)
                (raise (ImproperlyConfigured n2)) lg1) as H2.
  rewrite (find_ext (fun c => iexact (title c) n1) (fun c => iexact (title c) n2))
    in H1 by (intros; now apply iexact_lower).
  destruct (List.find _ (TaxClass_objects db)) as [tc|].
  - unfold taxclass_by_name.
    rewrite (bind_Return _ _ _ _ _ H1), (bind_Return _ _ _ _ _ H2).
    exact (fun H => H).
  - unfold taxclass_by_name. rewrite (bind_Raise _ _ _ _ _ H1). discriminate.
Qed.
End ClassLookup.

(** C9 (the code departs from the claim). [get_rate] finds a class named to
    it whatever the letter case of the name, for every store and every two
    names that differ only in case. The lookup [shipping] makes for the
    [TAX_CLASS] setting does not: in a store whose shipping class is titled
    "Shipping", the setting written "shipping" names that class to
    [get_rate] but not to [shipping], which logs that the class does not
    exist and leaves shipping untaxed, where the setting written "Shipping"
    gives a tax of 0.5000 on 10.00. *)
Theorem shipping_lookup_case_sensitive :
  (forall (db : Store) (n1 n2 : string),
     lower n1 = lower n2 ->
     taxclass_by_name db n1 = taxclass_by_name db n2
     /\ (forall self area country get_object lg v lg',
           get_rate db self (TcName n1) area country get_object lg
           = (Return v, lg') ->
           get_rate db self (TcName n2) area country get_object lg
           = (Return v, lg')))
  /\ lower "shipping" = lower "Shipping"
  /\ outcome (get_rate (Examples.store false "shipping") Examples.processor
                (TcName "shipping") None None false)
     = Return (Dec.mk 5 (-2))
  /\ outcome (taxclass_by_title (Examples.store false "Shipping") "Shipping")
     = Return Examples.Shipping_class
  /\ outcome (taxclass_by_title (Examples.store false "shipping") "shipping")
     = Raise (DoesNotExist MTaxClass)
  /\ outcome (shipping (Examples.store false "Shipping") Examples.processor
                (Some (Dec.mk 1000 (-2))) false)
     = Return (Dec.mk 5000 (-4))
  /\ shipping (Examples.store false "shipping") Examples.processor
       (Some (Dec.mk 1000 (-2))) false []
     = (Return Dec.zero_00,
        [{| levelname := ERROR; msg := "'Shipping' TaxClass doesn't exist." |}]).
Proof.
  split.
  - intros db n1 n2 Hl. split.
    + now apply taxclass_by_name_lower.
    + intros. now apply (get_rate_name_lower db self n1 n2).
  - repeat split.
Qed.

(** ** Shipping tax *)

Section ShippingFacts.
Context (db : Store).

Lemma try_get_any {A B} (m : Model) (table : list A) (p : A -> bool)
    (k : A -> M B) (handler : M B) (lg : list LogRecord) :
  (forall a, never_raises (k a)) ->
  try_except (bind (objects_get m table p) k) is_ObjectDoesNotExist handler lg
  = match List.find p table with
    | Some a => k a lg
    | None => handler lg
    end.
Proof.
  intros Hk. unfold try_except, bind, objects_get.
  destruct (List.find p table) as [a|]; simpl; [|reflexivity].
  destruct (Hk a lg) as (b & l1 & ->). reflexivity.
Qed.

Lemma shipping_rate_after_lookup self (tc : TaxClass) :
  never_raises
    (let* '(full_rate, taxes) := get_rate db self (TcObj tc) None None true in
     ret (Some full_rate, taxes)).
Proof.
  apply never_raises_bind; [apply get_rate_object_never_raises|].
  intros [r taxes]. apply never_raises_ret.
Qed.

Lemma shipping_rate_never_raises self : never_raises (shipping_rate db self).
Proof.
  unfold shipping_rate, taxclass_by_title.
  destruct (TAX_SHIPPING_CANADIAN (settings db)); [|apply never_raises_ret].
  intros lg. rewrite try_get_any by apply shipping_rate_after_lookup.
  destruct (List.find _ (TaxClass_objects db)) as [tc|].
  - apply shipping_rate_after_lookup.
  - eexists _, _. reflexivity.
Qed.

Lemma shipping_rate_log_blind self : log_blind (shipping_rate db self).
Proof.
  unfold shipping_rate, taxclass_by_title.
  repeat first [apply get_rate_log_blind | monad_step].
Qed.

Lemma shipping_rate_disabled self lg :
  TAX_SHIPPING_CANADIAN (settings db) = false ->
  shipping_rate db self lg = (Return (None, []), lg).
Proof. intros H. unfold shipping_rate. now rewrite H. Qed.

Lemma shipping_rate_missing_class self lg :
  TAX_SHIPPING_CANADIAN (settings db) = true ->
  List.find (fun c => String.eqb (title c) (TAX_CLASS (settings db)))
    (TaxClass_objects db) = None ->
  shipping_rate db self lg
  = (Return (None, []),
     lg ++ [{| levelname := ERROR; msg := "'Shipping' TaxClass doesn't exist." |}]).
Proof.
  intros Hflag Hfind. unfold shipping_rate, taxclass_by_title.
  rewrite Hflag, try_get_any by apply shipping_rate_after_lookup.
  now rewrite Hfind.
Qed.

Lemma shipping_never_raises self subtotal with_details :
  never_raises (shipping db self subtotal with_details).
Proof.
  unfold shipping. apply never_raises_bind.
  - destruct (shipping_subtotal self subtotal) as [d|]; [|apply never_raises_ret].
    destruct (Dec.truthy d); [|apply never_raises_ret].
    apply never_raises_bind; [apply shipping_rate_never_raises|].
    intros [r taxes]. apply never_raises_ret.
  - intros [t d]. destruct with_details; apply never_raises_ret.
Qed.

Lemma shipping_log_blind self subtotal with_details :
  log_blind (shipping db self subtotal with_details).
Proof.
  unfold shipping.
  repeat first [apply shipping_rate_log_blind | monad_step].
Qed.

(** What [shipping] returns once [shipping_rate] has found nothing. *)
Lemma shipping_without_rate self subtotal d with_details lg lg1 :
  shipping_subtotal self subtotal = Some d ->
  Dec.truthy d = true ->
  shipping_rate db self lg = (Return (None, []), lg1) ->
  shipping db self subtotal with_details lg
  = (Return (no_shipping_tax with_details), lg1).
Proof.
  intros Hsub Hd Hrate. unfold shipping. rewrite Hsub, Hd.
  unfold bind. rewrite Hrate. now destruct with_details.
Qed.
End ShippingFacts.

(** C7. Called with a positive subtotal, [shipping] never raises. With
    [TAX_SHIPPING_CANADIAN] off the shipping tax is [0.00]; with it on and
    no tax class titled as [TAX_CLASS] says, the error is logged and the
    shipping tax is [0.00]. *)
Theorem shipping_missing_class (db : Store) (self : Processor)
    (subtotal : option Decimal) (d : Decimal) (with_details : bool)
    (lg : list LogRecord) :
  shipping_subtotal self subtotal = Some d ->
  0 < Dec.coef d ->
  (exists v lg', shipping db self subtotal with_details lg = (Return v, lg'))
  /\ (TAX_SHIPPING_CANADIAN (settings db) = false ->
      shipping db self subtotal with_details lg
      = (Return (no_shipping_tax with_details), lg))
  /\ (TAX_SHIPPING_CANADIAN (settings db) = true ->
      List.find (fun c => String.eqb (title c) (TAX_CLASS (settings db)))
        (TaxClass_objects db) = None ->
      shipping db self subtotal with_details lg
      = (Return (no_shipping_tax with_details),
         lg ++ [{| levelname := ERROR;
                   msg := "'Shipping' TaxClass doesn't exist." |}])).
Proof.
  intros Hsub Hpos.
  assert (Dec.truthy d = true) as Hd.
  { unfold Dec.truthy. destruct (Z.eqb_spec (Dec.coef d) 0); [lia|reflexivity]. }
  split; [apply shipping_never_raises|]. split.
  - intros Hflag. apply (shipping_without_rate db self subtotal d); auto.
    now apply shipping_rate_disabled.
  - intros Hflag Hfind. apply (shipping_without_rate db self subtotal d); auto.
    now apply shipping_rate_missing_class.
Qed.

Lemma shipping_missing_class_witness :
  shipping (Examples.store false "Freight") Examples.processor
    (Some (Dec.mk 1000 (-2))) true []
  = (Return (Dec.zero_00, ∅),
     [{| levelname := ERROR; msg := "'Shipping' TaxClass doesn't exist." |}]).
Proof.
  destruct (shipping_missing_class (Examples.store false "Freight")
              Examples.processor (Some (Dec.mk 1000 (-2))) (Dec.mk 1000 (-2))
              true [])
    as (_ & _ & Hmissing).
  - reflexivity.
  - reflexivity.
  - apply Hmissing; reflexivity.
Defined.

(** ** The tax-detail map *)

Section DetailFacts.
Import Dec DecFacts.

Lemma accumulate_lookup (d : gmap string Decimal) (k c : string) (x : Decimal) :
  accumulate d k x !! c
  = if decide (k = c) then Some (add (default zero_00 (d !! k)) x) else d !! c.
Proof.
  unfold accumulate. destruct (d !! k) as [v|] eqn:Hk.
  - rewrite lookup_alter. destruct (decide (k = c)); [|reflexivity].
    now rewrite Hk.
  - rewrite lookup_alter. destruct (decide (k = c)).
    + now rewrite lookup_insert_eq.
    + now rewrite lookup_insert_ne.
Qed.

Lemma value_default (o : option Decimal) :
  (value (default zero_00 o) == entry_value o)%Q.
Proof. destruct o; reflexivity. Qed.

(** The entry of a code after [add_details] is what [code_amount] makes of
    the entry before it. *)
Lemma add_details_lookup (taxes : Receipt) (price : Decimal)
    (d : gmap string Decimal) (c : string) :
  add_details taxes price d !! c = code_amount c taxes price (d !! c).
Proof.
  unfold add_details. revert d.
  induction taxes as [|[k r] taxes IH]; intros d; simpl; [reflexivity|].
  rewrite IH, accumulate_lookup. f_equal.
  destruct (decide (k = c)) as [->|Hne].
  - now rewrite String.eqb_refl.
  - apply String.eqb_neq in Hne. now rewrite Hne.
Qed.

(** When nothing is rounded, a code's entry grows by what [taxes] charge. *)
Lemma value_code_amount (c : string) (taxes : Receipt) (price : Decimal)
    (cur : option Decimal) :
  code_fits c taxes price cur ->
  (entry_value (code_amount c taxes price cur)
   == entry_value cur + charged taxes price c)%Q.
Proof.
  unfold charged. revert cur.
  induction taxes as [|[k r] taxes IH]; intros cur Hf; simpl in *; [ring|].
  destruct (String.eqb k c).
  - destruct Hf as (Hm & Ha & Hf). rewrite (IH _ Hf). simpl entry_value.
    rewrite (value_add _ _ Ha), (value_mul _ _ Hm), value_default. ring.
  - rewrite (IH _ Hf). ring.
Qed.

Lemma is_Some_accumulate (d : gmap string Decimal) (k c : string) (x : Decimal) :
  is_Some (accumulate d k x !! c) <-> k = c \/ is_Some (d !! c).
Proof.
  rewrite accumulate_lookup. destruct (decide (k = c)); [|tauto].
  split; [auto|]. intros _. eauto.
Qed.

Lemma is_Some_add_details (taxes : Receipt) (price : Decimal)
    (d : gmap string Decimal) (c : string) :
  is_Some (add_details taxes price d !! c)
  <-> In c (List.map fst taxes) \/ is_Some (d !! c).
Proof.
  unfold add_details. revert d.
  induction taxes as [|[k r] taxes IH]; intros d; simpl.
  - tauto.
  - rewrite IH, is_Some_accumulate. tauto.
Qed.

Lemma merge_absent (l : list (string * Decimal)) (d : gmap string Decimal)
    (c : string) :
  c ∉ l.*1 -> fold_left merge_step l d !! c = d !! c.
Proof.
  revert d. induction l as [|[k v] l IH]; intros d Hc; simpl; [reflexivity|].
  rewrite fmap_cons, not_elem_of_cons in Hc. destruct Hc as [Hne Hc].
  rewrite IH by assumption. simpl in Hne. now rewrite lookup_insert_ne.
Qed.

Lemma merge_present (l : list (string * Decimal)) (d : gmap string Decimal)
    (c : string) (v : Decimal) :
  NoDup l.*1 -> (c, v) ∈ l ->
  fold_left merge_step l d !! c = Some (add (default zero_00 (d !! c)) v).
Proof.
  revert d. induction l as [|[k w] l IH]; intros d Hnd Hin; simpl.
  - inversion Hin.
  - rewrite fmap_cons in Hnd. apply NoDup_cons in Hnd as [Hk Hnd].
    apply elem_of_cons in Hin as [Heq|Hin].
    + injection Heq as -> ->. rewrite merge_absent by assumption.
      now rewrite lookup_insert_eq.
    + assert (k <> c) as Hne.
      { intros ->. apply Hk. apply list_elem_of_fmap. now exists (c, v). }
      rewrite IH by assumption. now rewrite lookup_insert_ne.
Qed.

Lemma merged_lookup (sd td : gmap string Decimal) (c : string) :
  shipping_details_merged sd td !! c
  = match sd !! c with
    | Some v => Some (add (default zero_00 (td !! c)) v)
    | None => td !! c
    end.
Proof.
  unfold shipping_details_merged.
  destruct (sd !! c) as [v|] eqn:Hc.
  - apply merge_present; [apply NoDup_fst_map_to_list|].
    now apply elem_of_map_to_list.
  - apply merge_absent. intros Hin.
    apply list_elem_of_fmap in Hin as ([k v] & -> & Hin).
    apply elem_of_map_to_list in Hin. simpl in Hc. congruence.
Qed.

Lemma is_Some_merged (sd td : gmap string Decimal) (c : string) :
  is_Some (shipping_details_merged sd td !! c)
  <-> is_Some (td !! c) \/ is_Some (sd !! c).
Proof.
  rewrite merged_lookup. destruct (sd !! c) as [v|].
  - split; eauto. 
  - split; [auto|]. intros [H|[x Hx]]; [exact H|discriminate].
Qed.
End DetailFacts.

(** ** Order aggregation *)

Section ProcessFacts.
Context (db : Store).

Lemma process_item_Return self t d item lg r lg' :
  process_item db self (t, d) item lg = (Return r, lg') ->
  snd r = add_details (item_taxes db self item) (sub_total item) d.
Proof.
  unfold process_item, item_taxes, outcome.
  rewrite <- (get_rate_log_blind db self _ None None true lg []).
  unfold bind.
  destruct (get_rate db self _ None None true lg) as [[[fr taxes]|e] lg1];
    simpl; [|discriminate].
  intros H. injection H as <- _. reflexivity.
Qed.

Lemma process_items_Return self items acc lg r lg' :
  for_each items (process_item db self) acc lg = (Return r, lg') ->
  snd r = item_details db self items (snd acc).
Proof.
  revert acc lg. induction items as [|item items IH]; intros [t d] lg; simpl.
  - intros H. injection H as <- _. reflexivity.
  - destruct (process_item db self (t, d) item lg) as [[acc'|e] lg1] eqn:Hitem.
    + rewrite (bind_Return _ _ _ _ _ Hitem). intros H.
      apply IH in H. rewrite H. f_equal.
      apply (process_item_Return self t d item lg acc' lg1 Hitem).
    + rewrite (bind_Raise _ _ _ _ _ Hitem). discriminate.
Qed.

Lemma item_details_lookup self items d c :
  item_details db self items d !! c = items_amount db self c items (d !! c).
Proof.
  unfold item_details, items_amount. revert d.
  induction items as [|item items IH]; intros d; simpl; [reflexivity|].
  now rewrite IH, add_details_lookup.
Qed.

Lemma value_items_amount self c items cur :
  items_fit db self c items cur ->
  (entry_value (items_amount db self c items cur)
   == entry_value cur
      + Qsum (List.map
                (fun item => charged (item_taxes db self item) (sub_total item) c)
                items))%Q.
Proof.
  unfold items_amount. revert cur.
  induction items as [|item items IH]; intros cur Hf; simpl in *; [ring|].
  destruct Hf as [Hc Hf]. rewrite (IH _ Hf), (value_code_amount _ _ _ _ Hc). ring.
Qed.

(** The merged entry of a code, from the details of the items and of the
    shipping tax. *)
Lemma merged_details_lookup self o c :
  shipping_details_merged
    (add_details (shipping_taxes db self o) (shipping_sub_total o) ∅)
    (item_details db self (taxable_items o) ∅) !! c
  = merged_amount db self o c.
Proof.
  rewrite merged_lookup, add_details_lookup, item_details_lookup, !lookup_empty.
  reflexivity.
Qed.

Lemma value_merged_amount self o c :
  details_fit db self o c ->
  (entry_value (merged_amount db self o c)
   == merchandise_charge db self o c + shipping_charge db self o c)%Q.
Proof.
  intros (Hi & Hs & Hm). unfold merged_amount in *.
  pose proof (value_items_amount self c _ _ Hi) as Vi.
  pose proof (value_code_amount c _ _ _ Hs) as Vs.
  fold (merchandise_amount db self o c) in Vi.
  fold (shipping_amount db self o c) in Vs.
  unfold merchandise_charge, shipping_charge.
  destruct (shipping_amount db self o c) as [v|].
  - simpl entry_value in *.
    rewrite (DecFacts.value_add _ _ Hm), value_default, Vi, Vs. ring.
  - assert (Hz : (charged (shipping_taxes db self o) (shipping_sub_total o) c
                  == 0)%Q).
    { simpl entry_value in Vs. rewrite Qplus_0_l in Vs. symmetry. exact Vs. }
    rewrite Vi, Hz. simpl entry_value. ring.
Qed.

Lemma is_Some_item_details self items d c :
  is_Some (item_details db self items d !! c)
  <-> (exists item, In item items /\ In c (List.map fst (item_taxes db self item)))
      \/ is_Some (d !! c).
Proof.
  unfold item_details. revert d. induction items as [|item items IH]; intros d; simpl.
  - split; [auto|]. intros [(item & [] & _)|H]; exact H.
  - rewrite IH, is_Some_add_details. split.
    + intros [(i & Hi & Hc)|[Hc|Hd]]; eauto 6.
    + intros [(i & [->|Hi] & Hc)|Hd]; eauto 6.
Qed.

Lemma shipping_details_Return self o lg t sd lg' :
  order self = Some o ->
  shipping db self None true lg = (Return (t, sd), lg') ->
  sd = add_details (shipping_taxes db self o) (shipping_sub_total o) ∅.
Proof.
  intros Ho. unfold shipping, shipping_subtotal, shipping_taxes, outcome.
  rewrite Ho, <- (shipping_rate_log_blind db self lg []).
  destruct (Dec.truthy (shipping_sub_total o)).
  - destruct (shipping_rate db self lg) as [[[fr taxes]|e] lg1] eqn:Hr; simpl.
    + erewrite bind_Return
        by (rewrite (bind_Return _ _ _ _ _ Hr); reflexivity).
      intros H. injection H as _ <- _. reflexivity.
    + erewrite bind_Raise
        by (rewrite (bind_Raise _ _ _ _ _ Hr); reflexivity).
      discriminate.
  - simpl. intros H. injection H as _ <- _. reflexivity.
Qed.
End ProcessFacts.

(** C6 as stated: the entry of a code was claimed to be the sum of the
    code's rate times the item subtotals. With a GST of 4.9875%, a PST of
    7.4125% compounding on it and one item of 98765432.9876543219, the PST
    rate times the subtotal has more than 28 digits and the entry the code
    returns is that product rounded. *)
Lemma merged_details_rounding_counterexample :
  TAX_SHIPPING_DETAILS_SEPARATE (settings LongExamples.store) = false
  /\ outcome (process LongExamples.store Examples.processor
                (Some LongExamples.an_order))
     = Return (Dec.mk 1261204795301460351156552031 (-20),
               {[ "GST" := Dec.mk 49259259702592593047625 (-16);
                  "PST" := Dec.mk 7686121982755344206803020312 (-21) ]})
  /\ ~ (Dec.value (Dec.mk 7686121982755344206803020312 (-21))
        == merchandise_charge LongExamples.store
             (set_order Examples.processor LongExamples.an_order)
             LongExamples.an_order "PST"
           + shipping_charge LongExamples.store
               (set_order Examples.processor LongExamples.an_order)
               LongExamples.an_order "PST")%Q.
Proof.
  split; [reflexivity|]. split; [vm_compute; reflexivity|].
  apply Qeq_bool_neq. vm_compute. reflexivity.
Qed.

(** C6 (amended). With [TAX_SHIPPING_DETAILS_SEPARATE] off, a code is a key
    of the detail map [process] returns exactly when an item or the shipping
    charge bears it, and its entry is built as the code builds it: from 0.00,
    each taxable item in turn adds the code's rate times the item subtotal,
    and the shipping amount of the code (its rate times the shipping
    subtotal, added from 0.00) is added last, every sum and product being a
    Decimal operation, rounded to 28 significant digits. When none of these
    results has more than 28 digits, the entry is exactly the merchandise
    amount plus the shipping amount of the code. *)
Theorem process_merged_details (db : Store) (self : Processor)
    (order_arg : option Order) (o : Order) (lg lg' : list LogRecord)
    (total : Decimal) (details : gmap string Decimal) :
  TAX_SHIPPING_DETAILS_SEPARATE (settings db) = false ->
  process_order self order_arg = Some o ->
  process db self order_arg lg = (Return (total, details), lg') ->
  forall code : string,
    (is_Some (details !! code)
     <-> (exists item,
            In item (taxable_items o)
            /\ In code (List.map fst (item_taxes db (set_order self o) item)))
         \/ In code (List.map fst (shipping_taxes db (set_order self o) o)))
    /\ details !! code = merged_amount db (set_order self o) o code
    /\ (details_fit db (set_order self o) o code ->
        (value_at details code
         == merchandise_charge db (set_order self o) o code
            + shipping_charge db (set_order self o) o code)%Q).
Proof.
  intros Hflag Ho. unfold process.
  assert (match order_arg with
          | Some o' => set_order self o'
          | None => self
          end = set_order self o) as ->.
  { destruct order_arg as [o'|]; simpl in Ho; [congruence|].
    destruct self as [ord usr]. simpl in Ho. now subst. }
  change (order (set_order self o)) with (Some o). cbv iota. rewrite Hflag.
  destruct (for_each (List.filter (fun i => taxable (product i)) (orderitem_set o))
              (process_item db (set_order self o)) (Dec.zero_00, ∅) lg)
    as [[[t d]|e] lg1] eqn:Hitems;
    [rewrite (bind_Return _ _ _ _ _ Hitems); cbv beta iota
    |rewrite (bind_Raise _ _ _ _ _ Hitems); discriminate].
  destruct (shipping db (set_order self o) None true lg1)
    as [[[st sd]|e] lg2] eqn:Hship;
    [rewrite (bind_Return _ _ _ _ _ Hship); cbv beta iota
    |rewrite (bind_Raise _ _ _ _ _ Hship); discriminate].
  intros H. injection H as _ <- _. intros code.
  apply process_items_Return in Hitems. simpl in Hitems. subst d.
  apply (shipping_details_Return db (set_order self o) o) in Hship;
    [|reflexivity]. subst sd.
  fold (taxable_items o).
  split; [|split].
  - rewrite is_Some_merged, is_Some_item_details, is_Some_add_details.
    rewrite lookup_empty. split.
    + intros [[H|[x Hx]]|[H|[x Hx]]]; try discriminate; auto.
    + intros [H|H]; auto.
  - apply merged_details_lookup.
  - intros Hfit. unfold value_at. rewrite merged_details_lookup.
    now apply value_merged_amount.
Qed.

Lemma process_merged_details_witness :
  match outcome (process (Examples.store false "Shipping") Examples.processor
                   (Some Examples.an_order)) with
  | Return (_, details) =>
      details !! "GST" = Some (Dec.mk 15000 (-4))
      /\ (value_at details "GST"
          == merchandise_charge (Examples.store false "Shipping")
               (set_order Examples.processor Examples.an_order)
               Examples.an_order "GST"
             + shipping_charge (Examples.store false "Shipping")
                 (set_order Examples.processor Examples.an_order)
                 Examples.an_order "GST")%Q
  | Raise _ => False
  end.
Proof.
  destruct (process (Examples.store false "Shipping") Examples.processor
              (Some Examples.an_order) []) as [[[total details]|e] lg'] eqn:Hrun.
  - unfold outcome. rewrite Hrun. simpl fst. cbv iota.
    destruct (process_merged_details (Examples.store false "Shipping")
                Examples.processor (Some Examples.an_order) Examples.an_order
                [] lg' total details eq_refl eq_refl Hrun "GST")
      as (_ & Hentry & Hexact).
    split; [rewrite Hentry; vm_compute; reflexivity|].
    apply Hexact. vm_compute. repeat split.
  - vm_compute in Hrun. discriminate Hrun.
Defined.

(** ** Shipping details kept separate *)

(** The loop reads the literal key ['taxCode'], not the code it iterates
    over: with shipping details that lack this key it raises on its first
    turn. *)
Lemma shipping_details_separate_KeyError (sd td : gmap string Decimal)
    (lg : list LogRecord) :
  sd <> ∅ -> sd !! "taxCode" = None ->
  shipping_details_separate sd td lg = (Raise (KeyError "taxCode"), lg).
Proof.
  intros Hne Hkey. unfold shipping_details_separate.
  destruct (map_to_list sd) as [|[k v] l] eqn:Hl.
  - now apply map_to_list_empty_iff in Hl.
  - simpl. now rewrite Hkey.
Qed.

(** X25. When a tax code is itself named "taxCode", the loop completes and
    files that one amount under every "Shipping ..." key. *)
Lemma shipping_details_separate_taxCode (sd td : gmap string Decimal)
    (v : Decimal) (lg : list LogRecord) :
  sd !! "taxCode" = Some v ->
  exists d,
    shipping_details_separate sd td lg = (Return d, lg)
    /\ forall k, is_Some (sd !! k) -> d !! ("Shipping " +:+ k) = Some v.
Proof.
  intros Hkey. unfold shipping_details_separate. rewrite Hkey.
  assert (forall (l : list (string * Decimal)) (td : gmap string Decimal),
             exists d,
               for_each l
                 (fun d '(taxcode, _) => ret (<["Shipping " +:+ taxcode := v]> d))
                 td lg = (Return d, lg)
               /\ (forall k, k ∈ l.*1 -> d !! ("Shipping " +:+ k) = Some v)
               /\ (forall j, td !! j = Some v -> d !! j = Some v)) as Hloop.
  { induction l as [|[k w] l IH]; intros td0; simpl.
    - exists td0. split; [reflexivity|]. split; [|auto].
      intros k Hk. inversion Hk.
    - destruct (IH (<["Shipping " +:+ k := v]> td0)) as (d & Hrun & Hkeys & Hkeep).
      exists d. split; [exact Hrun|]. split.
      + intros k' Hk'. simpl in Hk'.
        apply elem_of_cons in Hk' as [->|Hk']; [|now apply Hkeys].
        apply Hkeep. now rewrite lookup_insert_eq.
      + intros j Hj. apply Hkeep. rewrite lookup_insert.
        destruct (decide ("Shipping " +:+ k = j)); [reflexivity|exact Hj]. }
  destruct (Hloop (map_to_list sd) td) as (d & Hrun & Hkeys & _).
  exists d. split; [exact Hrun|].
  intros k [w Hw]. apply Hkeys.
  apply list_elem_of_fmap. exists (k, w). split; [reflexivity|].
  now apply elem_of_map_to_list.
Qed.

(** C1 (the code departs from the claim). Shipping is taxed under the code
    "GST" and the details are to be kept separate: the claim asks for the key
    "Shipping GST" holding the shipping GST; [process] raises [KeyError]
    instead, and the same order goes through when the details are merged. *)
Theorem process_separate_details_KeyError :
  outcome (shipping (Examples.store true "Shipping")
             (set_order Examples.processor Examples.an_order) None true)
  = Return (Dec.mk 5000 (-4), {[ "GST" := Dec.mk 5000 (-4) ]})
  /\ outcome (process (Examples.store true "Shipping") Examples.processor
                (Some Examples.an_order))
     = Raise (KeyError "taxCode")
  /\ outcome (process (Examples.store false "Shipping") Examples.processor
                (Some Examples.an_order))
     = Return (Dec.mk 2970000 (-6),
               {[ "GST" := Dec.mk 15000 (-4); "PST" := Dec.mk 1470000 (-6) ]}).
Proof. repeat split; vm_compute; reflexivity. Qed.

(** * Further properties of the processor *)


(** ** More on the rate reducer *)

Section RateReducerMore.
Import Dec DecFacts.

Lemma filter_all {A} (f : A -> bool) (l : list A) :
  Forall (fun x => f x = true) l -> List.filter f l = l.
Proof.
  induction 1 as [|x l Hx _ IH]; simpl; [reflexivity|]. now rewrite Hx, IH.
Qed.

Lemma filter_none {A} (f : A -> bool) (l : list A) :
  Forall (fun x => f x = false) l -> List.filter f l = [].
Proof.
  induction 1 as [|x l Hx _ IH]; simpl; [reflexivity|]. now rewrite Hx.
Qed.

Lemma partition_length (rates : list TaxRate) :
  (length (regular_of rates) + length (compound_of rates))%nat = length rates.
Proof.
  unfold regular_of, compound_of. induction rates as [|r rates IH]; simpl;
    [reflexivity|].
  destruct (compound r); simpl; lia.
Qed.

(** The compound loop adds one line per record, under the record's code. *)
Lemma compound_loop_lines (cs : list TaxRate) (t : Decimal) (d : Receipt) :
  exists lines,
    snd (fold_left add_compound cs (t, d)) = d ++ lines
    /\ List.map fst lines = List.map taxCode cs.
Proof.
  revert t d. induction cs as [|c cs IH]; intros t d; cbn [fold_left].
  - exists []. now rewrite app_nil_r.
  - change (add_compound (t, d) c)
      with (add t (add (percentage c) (mul (percentage c) t)),
            d ++ [(taxCode c, add (percentage c) (mul (percentage c) t))]).
    destruct (IH (add t (add (percentage c) (mul (percentage c) t)))
                (d ++ [(taxCode c, add (percentage c) (mul (percentage c) t))]))
      as (lines & Hlines & Hcodes).
    exists ((taxCode c, add (percentage c) (mul (percentage c) t)) :: lines).
    split.
    + etransitivity; [exact Hlines|]. now rewrite <- app_assoc.
    + simpl. now rewrite Hcodes.
Qed.

(** With rates that are not negative and nothing rounded, a compound line
    is never below the record's own percentage and the running total never
    goes down. *)
Lemma compound_loop_nonneg (cs : list TaxRate) (t : Decimal) (d : Receipt) :
  (0 <= value t)%Q ->
  Forall (fun c => 0 <= rate_value c)%Q cs ->
  compound_fits cs t ->
  exists lines,
    snd (fold_left add_compound cs (t, d)) = d ++ lines
    /\ Forall2 (fun c line => fst line = taxCode c
                              /\ (rate_value c <= value (snd line))%Q) cs lines
    /\ (value t <= value (fst (fold_left add_compound cs (t, d))))%Q.
Proof.
  intros Ht Hcs. revert t d Ht.
  induction Hcs as [|c cs Hc _ IH]; intros t d Ht Hf; cbn [fold_left].
  - exists []. rewrite app_nil_r. repeat split; [constructor|apply Qle_refl].
  - change (add_compound (t, d) c)
      with (add t (add (percentage c) (mul (percentage c) t)),
            d ++ [(taxCode c, add (percentage c) (mul (percentage c) t))]).
    destruct Hf as (Hfm & Hfa & Hft & Hf).
    set (p := add (percentage c) (mul (percentage c) t)) in *.
    assert (rate_value c <= value p)%Q as Hp.
    { unfold p, rate_value in *. rewrite (value_add _ _ Hfa), (value_mul _ _ Hfm).
      rewrite <- (Qplus_0_r (value (percentage c))) at 1.
      apply Qplus_le_r. now apply Qmult_le_0_compat. }
    assert (value t <= value (add t p))%Q as Hstep.
    { rewrite (value_add _ _ Hft). rewrite <- (Qplus_0_r (value t)) at 1.
      apply Qplus_le_r. now apply Qle_trans with (rate_value c). }
    destruct (IH (add t p) (d ++ [(taxCode c, p)])) as (lines & Heq & Hlines & Hle).
    { now apply Qle_trans with (value t). }
    { exact Hf. }
    exists ((taxCode c, p) :: lines). split; [|split].
    + etransitivity; [exact Heq|]. now rewrite <- app_assoc.
    + constructor; auto.
    + now apply Qle_trans with (value (add t p)).
Qed.

Lemma Qsum_nonneg (l : list Q) : Forall (fun q => 0 <= q)%Q l -> (0 <= Qsum l)%Q.
Proof.
  induction 1 as [|q l Hq _ IH]; simpl; [apply Qle_refl|].
  rewrite <- (Qplus_0_r 0). now apply Qplus_le_compat.
Qed.

End RateReducerMore.

(** X1. When no record is an override or compound, the breakdown lists every
    record at its own percentage in input order and the total rate is the
    percentages added one after the other from 0.00, each sum rounded to 28
    significant digits; it is the exact sum of the percentages when no sum
    has more than 28 digits. *)
Theorem tax_rate_list_all_regular (rates : list TaxRate) :
  Forall (fun r => override r = false /\ compound r = false) rates ->
  snd (tax_rate_list rates) = List.map entry rates
  /\ fst (tax_rate_list rates)
     = fold_left Dec.add (List.map percentage rates) Dec.zero_00
  /\ (sum_fits (List.map percentage rates) Dec.zero_00 ->
      (Dec.value (fst (tax_rate_list rates))
       == Qsum (List.map rate_value rates))%Q).
Proof.
  intros Hall.
  assert (List.filter override rates = []) as Hov.
  { apply filter_none. eapply List.Forall_impl; [|exact Hall].
    simpl. intros r [H _]. exact H. }
  assert (compound_of rates = []) as Hcmp.
  { apply filter_none. eapply List.Forall_impl; [|exact Hall].
    simpl. intros r [_ H]. exact H. }
  assert (regular_of rates = rates) as Hreg.
  { apply filter_all. eapply List.Forall_impl; [|exact Hall].
    simpl. intros r [_ ->]. reflexivity. }
  assert (Heq : tax_rate_list rates
                = (fold_left Dec.add (List.map percentage rates) Dec.zero_00,
                   List.map entry rates)).
  { rewrite (tax_rate_list_no_override rates Hov), Hcmp, regular_loop.
    unfold regular_sum. rewrite Hreg. reflexivity. }
  rewrite Heq. split; [reflexivity|]. split; [reflexivity|].
  intros Hfit. simpl fst.
  rewrite (value_fold_add _ _ Hfit), DecFacts.value_zero_00.
  unfold rate_value. rewrite List.map_map. ring.
Qed.

Lemma tax_rate_list_all_regular_witness :
  tax_rate_list [Examples.GST; Examples.GST_on_shipping]
  = (Dec.mk 10 (-2), [("GST", Dec.mk 5 (-2)); ("GST", Dec.mk 5 (-2))])
  /\ (Dec.value (fst (tax_rate_list [Examples.GST; Examples.GST_on_shipping]))
      == (5 # 100) + (5 # 100))%Q.
Proof.
  destruct (tax_rate_list_all_regular [Examples.GST; Examples.GST_on_shipping])
    as (Hlines & Htotal & Hexact); [repeat constructor|].
  split.
  - rewrite (surjective_pairing (tax_rate_list _)), Hlines, Htotal. reflexivity.
  - rewrite Hexact; [reflexivity|]. vm_compute. repeat split.
Defined.

(** X2. Without an override and when no intermediate result has more than 28
    digits, one plus the total rate is the product of one plus the sum of the
    non-compound percentages and of one plus each compound percentage,
    however many compound records there are. *)
Theorem tax_rate_list_total_product (rates : list TaxRate) :
  List.filter override rates = [] ->
  no_rounding rates ->
  (1 + Dec.value (fst (tax_rate_list rates))
   == (1 + base_rate rates)
      * Qprod (List.map (fun c => 1 + rate_value c) (compound_of rates)))%Q.
Proof. apply total_closed_form. Qed.

Lemma tax_rate_list_total_product_witness :
  (1 + Dec.value
         (fst (tax_rate_list [Examples.GST; Examples.PST; TiedExamples.QST]))
   == (1 + (5 # 100)) * ((1 + (7 # 100)) * ((1 + (8 # 100)) * 1)))%Q.
Proof.
  rewrite (tax_rate_list_total_product
             [Examples.GST; Examples.PST; TiedExamples.QST]);
    [reflexivity | reflexivity | vm_compute; repeat split].
Defined.

(** X3. Without an override every input record gives exactly one line: the
    non-compound records come first, in input order and at their own
    percentage, then one line per compound record in sorted order. *)
Theorem tax_rate_list_breakdown_shape (rates : list TaxRate) :
  List.filter override rates = [] ->
  exists lines,
    snd (tax_rate_list rates) = List.map entry (regular_of rates) ++ lines
    /\ List.map fst lines
       = List.map taxCode (sorted compound_order (compound_of rates))
    /\ length (snd (tax_rate_list rates)) = length rates.
Proof.
  intros Hov. rewrite (tax_rate_list_no_override rates Hov), fold_add_regular.
  destruct (compound_loop_lines (sorted compound_order (compound_of rates))
              (fold_left Dec.add (List.map percentage (regular_of rates)) Dec.zero_00)
              ([] ++ List.map entry (regular_of rates)))
    as (lines & Hlines & Hcodes).
  exists lines. split; [exact Hlines|]. split; [exact Hcodes|].
  apply (f_equal (@length _)) in Hlines. etransitivity; [exact Hlines|]. simpl.
  rewrite length_app, length_map, <- (partition_length rates). f_equal.
  rewrite <- (length_map fst), Hcodes, length_map.
  apply Permutation_length, sorted_Permutation.
Qed.

Lemma tax_rate_list_breakdown_shape_witness :
  exists lines,
    snd (tax_rate_list [Examples.PST; Examples.GST])
    = List.map entry (regular_of [Examples.PST; Examples.GST]) ++ lines
    /\ List.map fst lines
       = List.map taxCode
           (sorted compound_order (compound_of [Examples.PST; Examples.GST]))
    /\ length (snd (tax_rate_list [Examples.PST; Examples.GST])) = 2%nat.
Proof.
  apply (tax_rate_list_breakdown_shape [Examples.PST; Examples.GST]). reflexivity.
Defined.

(** X4. Without an override, with no negative percentage and when no
    intermediate result has more than 28 digits, the total rate is at least
    the sum of the non-compound percentages, and every compound line shows
    at least the record's own percentage. *)
Theorem tax_rate_list_nonnegative (rates : list TaxRate) :
  List.filter override rates = [] ->
  Forall (fun r => 0 <= rate_value r)%Q rates ->
  no_rounding rates ->
  (base_rate rates <= Dec.value (fst (tax_rate_list rates)))%Q
  /\ exists lines,
       snd (tax_rate_list rates) = List.map entry (regular_of rates) ++ lines
       /\ Forall2 (fun c line => fst line = taxCode c
                                 /\ (rate_value c <= Dec.value (snd line))%Q)
            (sorted compound_order (compound_of rates)) lines.
Proof.
  intros Hov Hpos [Hs Hc].
  assert (forall f, Forall (fun r => 0 <= rate_value r)%Q (List.filter f rates))
    as Hfilter.
  { intros f. apply List.Forall_forall. intros r Hr.
    apply List.filter_In in Hr as [Hr _].
    now apply (proj1 (List.Forall_forall _ _) Hpos). }
  pose proof (regular_total rates Hs) as HB.
  rewrite (tax_rate_list_no_override rates Hov), regular_loop.
  destruct (compound_loop_nonneg (sorted compound_order (compound_of rates))
              (regular_sum rates) (List.map entry (regular_of rates)))
    as (lines & Hlines & Hall & Hle).
  - rewrite HB. apply Qsum_nonneg. apply List.Forall_map. apply Hfilter.
  - eapply Permutation_Forall; [symmetry; apply sorted_Permutation|].
    apply Hfilter.
  - exact Hc.
  - split; [now rewrite <- HB|].
    exists lines. split; [exact Hlines|exact Hall].
Qed.

Lemma tax_rate_list_nonnegative_witness :
  (base_rate [Examples.GST; Examples.PST]
   <= Dec.value (fst (tax_rate_list [Examples.GST; Examples.PST])))%Q.
Proof.
  apply (tax_rate_list_nonnegative [Examples.GST; Examples.PST]).
  - reflexivity.
  - repeat constructor; discriminate.
  - vm_compute. repeat split.
Defined.

(** ** Percentages of six decimal places *)

Section SixPlace.
Import Dec DecFacts.

Lemma exact_add_aligned (a b : t) :
  expo b <= expo a ->
  exact_add a b = mk (coef a * 10 ^ (expo a - expo b) + coef b) (expo b).
Proof.
  intros H. unfold exact_add, align. rewrite Z.min_r by exact H.
  rewrite Z.sub_diag. change (10 ^ 0) with 1. now rewrite Z.mul_1_r.
Qed.

Lemma abs_mul_le (a b A B : Z) :
  Z.abs a <= A -> Z.abs b <= B -> Z.abs (a * b) <= A * B.
Proof.
  intros Ha Hb. rewrite Z.abs_mul. apply Z.mul_le_mono_nonneg; lia.
Qed.

Lemma pow10_le (k : Z) : 0 <= k <= 12 -> 0 < 10 ^ k <= 10 ^ 12.
Proof.
  intros Hk. split; [apply Z.pow_pos_nonneg; lia|].
  apply Z.pow_le_mono_r; lia.
Qed.

Lemma add_six (t : Decimal) (r : TaxRate) (n : Z) :
  six_place r -> six_total t -> Z.abs (coef t) <= n * 10 ^ 7 -> 0 <= n <= 1000 ->
  fits (exact_add t (percentage r))
  /\ add t (percentage r) = mk (coef t + coef (percentage r)) (-6).
Proof.
  intros [He Hc] Ht Hn Hn'.
  assert (Heq : exact_add t (percentage r)
                = mk (coef t + coef (percentage r)) (-6)).
  { rewrite exact_add_aligned by (destruct Ht as [Ht|[Ht _]]; lia).
    rewrite He. f_equal. destruct Ht as [Ht|[Ht H0]].
    - rewrite Ht. change (10 ^ (-6 - -6)) with 1. lia.
    - rewrite H0. reflexivity. }
  assert (Hf : fits (exact_add t (percentage r))).
  { rewrite Heq. unfold fits, prec. cbn [coef].
    change (10 ^ 7) with 10000000 in *.
    change (10 ^ 28) with 10000000000000000000000000000. lia. }
  split; [exact Hf|]. now rewrite (add_exact _ _ Hf).
Qed.

Lemma regular_six (rs : list TaxRate) :
  Forall six_place rs ->
  forall (t : Decimal) (n : Z),
    six_total t -> Z.abs (coef t) <= n * 10 ^ 7 ->
    0 <= n -> n + Z.of_nat (length rs) <= 1000 ->
    sum_fits (List.map percentage rs) t
    /\ six_total (fold_left add (List.map percentage rs) t)
    /\ Z.abs (coef (fold_left add (List.map percentage rs) t))
       <= (n + Z.of_nat (length rs)) * 10 ^ 7.
Proof.
  induction 1 as [|r rs Hr _ IH]; intros t n Ht Hc Hn Hlen.
  - simpl in *. rewrite Z.add_0_r. auto.
  - cbn [length] in Hlen. rewrite Nat2Z.inj_succ in Hlen.
    destruct (add_six t r n Hr Ht Hc) as [Hf Ha]; [lia|].
    destruct (IH (add t (percentage r)) (n + 1)) as (Hs & Hs6 & Hb).
    + left. now rewrite Ha.
    + rewrite Ha. cbn [coef]. destruct Hr as [_ Hr].
      change (10 ^ 7) with 10000000 in *. lia.
    + lia.
    + lia.
    + cbn [List.map sum_fits fold_left length]. rewrite Nat2Z.inj_succ.
      split; [split; assumption|]. split; [exact Hs6|].
      replace (n + Z.succ (Z.of_nat (length rs)))
        with (n + 1 + Z.of_nat (length rs)) by lia.
      exact Hb.
Qed.

(** One turn of the compound loop on a total of [k] places. *)
Lemma compound_six (c : TaxRate) (t : Decimal) (k M : Z) :
  six_place c -> expo t = - k -> 0 <= k <= 12 ->
  Z.abs (coef t) <= M -> M <= 2 * 10 ^ 20 ->
  fits (exact_mul (percentage c) t)
  /\ fits (exact_add (percentage c) (mul (percentage c) t))
  /\ fits (exact_add t (add (percentage c) (mul (percentage c) t)))
  /\ expo (add t (add (percentage c) (mul (percentage c) t))) = - (k + 6)
  /\ Z.abs (coef (add t (add (percentage c) (mul (percentage c) t))))
     <= M * 10 ^ 6 + 10 ^ 19 + 10 ^ 7 * M.
Proof.
  intros [He Hc] Ht Hk HM HM'.
  set (p := percentage c) in *.
  pose proof (pow10_le k Hk) as Hpk.
  assert (H0M : 0 <= M) by lia.
  assert (Hprod : Z.abs (coef p * coef t) <= 10 ^ 7 * M)
    by (apply abs_mul_le; lia).
  assert (Hshift : Z.abs (coef p * 10 ^ k) <= 10 ^ 7 * 10 ^ 12)
    by (apply abs_mul_le; lia).
  assert (Hscale : Z.abs (coef t * 10 ^ 6) <= M * 10 ^ 6)
    by (apply abs_mul_le; lia).
  change (10 ^ 7) with 10000000 in *. change (10 ^ 12) with 1000000000000 in *.
  change (10 ^ 20) with 100000000000000000000 in *.
  change (10 ^ 19) with 10000000000000000000.
  assert (Hm : fits (exact_mul p t)).
  { unfold fits, prec, exact_mul. cbn [coef].
    change (10 ^ 28) with 10000000000000000000000000000. lia. }
  assert (Hl : exact_add p (exact_mul p t)
               = mk (coef p * 10 ^ k + coef p * coef t) (- 6 - k)).
  { rewrite exact_add_aligned by (unfold exact_mul; cbn [expo]; lia).
    assert (E : expo p - expo (exact_mul p t) = k)
      by (unfold exact_mul; cbn [expo]; lia).
    rewrite E. unfold exact_mul. cbn [coef expo].
    apply (f_equal2 mk); [reflexivity|lia]. }
  assert (Ha : fits (exact_add p (exact_mul p t))).
  { rewrite Hl. unfold fits, prec. cbn [coef].
    change (10 ^ 28) with 10000000000000000000000000000. lia. }
  assert (Hadd : add p (mul p t)
                 = mk (coef p * 10 ^ k + coef p * coef t) (- 6 - k)).
  { rewrite (mul_exact _ _ Hm), (add_exact _ _ Ha). exact Hl. }
  assert (Ht' : exact_add t (mk (coef p * 10 ^ k + coef p * coef t) (- 6 - k))
                = mk (coef t * 10 ^ 6 + (coef p * 10 ^ k + coef p * coef t))
                    (- (k + 6))).
  { rewrite exact_add_aligned by (cbn [expo]; lia).
    cbn [coef expo].
    assert (E : expo t - (- 6 - k) = 6) by lia.
    rewrite E. apply (f_equal2 mk); [reflexivity|lia]. }
  assert (Hf : fits (exact_add t (mk (coef p * 10 ^ k + coef p * coef t) (- 6 - k)))).
  { rewrite Ht'. unfold fits, prec. cbn [coef].
    change (10 ^ 28) with 10000000000000000000000000000. lia. }
  split; [exact Hm|].
  split; [rewrite (mul_exact _ _ Hm); exact Ha|].
  rewrite Hadd. split; [exact Hf|].
  rewrite (add_exact _ _ Hf), Ht'. cbn [coef expo].
  split; [reflexivity|lia].
Qed.

(** The total the first loop leaves for six-place rates. *)
Lemma regular_sum_six (rates : list TaxRate) :
  Forall six_place rates -> (length rates <= 1000)%nat ->
  sum_fits (List.map percentage (regular_of rates)) zero_00
  /\ six_total (regular_sum rates)
  /\ Z.abs (coef (regular_sum rates)) <= 10 ^ 10.
Proof.
  intros Hall Hlen.
  assert (Hreg : Forall six_place (regular_of rates)).
  { apply List.Forall_forall. intros r Hr. apply List.filter_In in Hr as [Hr _].
    now apply (proj1 (List.Forall_forall _ _) Hall). }
  assert (Hlen' : (length (regular_of rates) <= length rates)%nat)
    by apply List.filter_length_le.
  destruct (regular_six (regular_of rates) Hreg zero_00 0) as (Hs & H6 & Hb).
  - right. split; reflexivity.
  - reflexivity.
  - lia.
  - lia.
  - split; [exact Hs|]. split; [exact H6|].
    unfold regular_sum. change (10 ^ 7) with 10000000 in Hb.
    change (10 ^ 10) with 10000000000. lia.
Qed.

Lemma six_total_places (t : Decimal) :
  six_total t -> exists k, expo t = - k /\ 0 <= k <= 6.
Proof. intros [H|[H _]]; [exists 6|exists 2]; lia. Qed.

Lemma compound_of_six (rates : list TaxRate) (c : TaxRate) :
  Forall six_place rates -> In c (compound_of rates) -> six_place c.
Proof.
  intros Hall Hc. apply List.filter_In in Hc as [Hc _].
  now apply (proj1 (List.Forall_forall _ _) Hall).
Qed.

(** Six-place rates with at most two compound records are never rounded. *)
Lemma six_place_no_rounding (rates : list TaxRate) :
  Forall six_place rates -> (length rates <= 1000)%nat ->
  (length (compound_of rates) <= 2)%nat ->
  no_rounding rates.
Proof.
  intros Hall Hlen Hlen2.
  destruct (regular_sum_six rates Hall Hlen) as (Hs & H6 & Hb).
  destruct (six_total_places _ H6) as (k & Hk & Hk').
  split; [exact Hs|].
  pose proof (sorted_Permutation compound_order (compound_of rates)) as Hp.
  assert (Hin : forall c, In c (sorted compound_order (compound_of rates)) ->
                          six_place c).
  { intros c Hc. apply (compound_of_six rates c Hall), (Permutation_in _ Hp Hc). }
  assert (Hl : (length (sorted compound_order (compound_of rates)) <= 2)%nat)
    by (rewrite (Permutation_length Hp); exact Hlen2).
  assert (Hk12 : 0 <= k <= 12) by lia.
  assert (HM : 10 ^ 10 <= 2 * 10 ^ 20) by (vm_compute; discriminate).
  destruct (sorted compound_order (compound_of rates)) as [|c1 [|c2 [|c3 rest]]];
    cbn [compound_fits].
  - exact I.
  - destruct (compound_six c1 (regular_sum rates) k (10 ^ 10)
                (Hin c1 (or_introl eq_refl)) Hk Hk12 Hb HM)
      as (Hm & Ha & Ht & _).
    auto.
  - destruct (compound_six c1 (regular_sum rates) k (10 ^ 10)
                (Hin c1 (or_introl eq_refl)) Hk Hk12 Hb HM)
      as (Hm & Ha & Ht & He' & Hb').
    assert (Hk12' : 0 <= k + 6 <= 12) by lia.
    assert (HM' : 10 ^ 10 * 10 ^ 6 + 10 ^ 19 + 10 ^ 7 * 10 ^ 10 <= 2 * 10 ^ 20)
      by (vm_compute; discriminate).
    destruct (compound_six c2 _ (k + 6) _
                (Hin c2 (or_intror (or_introl eq_refl))) He' Hk12' Hb' HM')
      as (Hm2 & Ha2 & Ht2 & _).
    auto 10.
  - simpl in Hl. lia.
Qed.
End SixPlace.

(** X26. For percentages of six decimal places and at most seven digits,
    in a list of at most a thousand records without an override and with
    exactly one compound record of percentage C over non-compound
    percentages that sum to B, nothing is rounded: the compound line comes
    last with the exact percentage C + C*B and the total rate is exactly
    B + C + C*B. *)
Theorem tax_rate_list_six_place_single_compound (rates : list TaxRate)
    (c : TaxRate) :
  List.filter override rates = [] ->
  compound_of rates = [c] ->
  Forall six_place rates ->
  (length rates <= 1000)%nat ->
  exists total eff : Decimal,
    tax_rate_list rates
    = (total, List.map entry (regular_of rates) ++ [(taxCode c, eff)])
    /\ (Dec.value eff == rate_value c + rate_value c * base_rate rates)%Q
    /\ (Dec.value total
        == base_rate rates + rate_value c + rate_value c * base_rate rates)%Q.
Proof.
  intros Hov Hc Hsix Hlen.
  assert (Hnr : no_rounding rates).
  { apply six_place_no_rounding; [exact Hsix|exact Hlen|]. rewrite Hc. simpl. lia. }
  destruct (single_compound_values rates c Hov Hc Hnr) as [Hl Ht].
  rewrite (single_compound_result rates c Hov Hc) in Ht |- *.
  eexists _, _. split; [reflexivity|]. split; [exact Hl|exact Ht].
Qed.

Lemma tax_rate_list_six_place_single_compound_witness :
  exists total eff : Decimal,
    tax_rate_list [LongExamples.GST6; LongExamples.PST6]
    = (total, [("GST", LongExamples.six 49875); ("PST", eff)])
    /\ (Dec.value eff == (74125 # 1000000) + (74125 # 1000000) * (49875 # 1000000))%Q.
Proof.
  destruct (tax_rate_list_six_place_single_compound
              [LongExamples.GST6; LongExamples.PST6] LongExamples.PST6)
    as (total & eff & Heq & Hl & _).
  - reflexivity.
  - reflexivity.
  - repeat constructor.
  - simpl. lia.
  - exists total, eff. split; [exact Heq|]. rewrite Hl. reflexivity.
Defined.

(** X27. For percentages of six decimal places and at most seven digits,
    in a list of at most a thousand records without an override and with
    two compound records C1 before C2 in [compound_order] over non-compound
    percentages that sum to B, nothing is rounded: the total rate is exactly
    B + (C1 + C1*B) + (C2 + C2*(B + C1 + C1*B)). *)
Theorem tax_rate_list_six_place_two_compounds (rates : list TaxRate)
    (c1 c2 : TaxRate) :
  List.filter override rates = [] ->
  Forall six_place rates ->
  (length rates <= 1000)%nat ->
  Permutation (compound_of rates) [c1; c2] ->
  compound_order c1 < compound_order c2 ->
  List.map fst (snd (tax_rate_list rates))
  = List.map taxCode (regular_of rates) ++ [taxCode c1; taxCode c2]
  /\ (Dec.value (fst (tax_rate_list rates))
      == base_rate rates
         + (rate_value c1 + rate_value c1 * base_rate rates)
         + (rate_value c2
            + rate_value c2
              * (base_rate rates
                 + (rate_value c1 + rate_value c1 * base_rate rates))))%Q.
Proof.
  intros Hov Hsix Hlen Hp Hlt.
  pose proof (sorted_two _ c1 c2 Hp Hlt) as Hs.
  split.
  - rewrite (two_compound_total rates c1 c2 Hov Hs). simpl snd.
    rewrite List.map_app, List.map_map. reflexivity.
  - apply two_compound_value; [exact Hov|exact Hp|].
    apply six_place_no_rounding; [exact Hsix|exact Hlen|].
    rewrite (Permutation_length Hp). simpl. lia.
Qed.

Lemma tax_rate_list_six_place_two_compounds_witness :
  List.map fst
    (snd (tax_rate_list
            [LongExamples.second6; LongExamples.base6; LongExamples.first6]))
  = ["GST"; "T1"; "T2"]
  /\ (Dec.value
        (fst (tax_rate_list
                [LongExamples.second6; LongExamples.base6; LongExamples.first6]))
      == (6713 # 1000000)
         + ((724917 # 1000000) + (724917 # 1000000) * (6713 # 1000000))
         + ((729805 # 1000000)
            + (729805 # 1000000)
              * ((6713 # 1000000)
                 + ((724917 # 1000000)
                    + (724917 # 1000000) * (6713 # 1000000)))))%Q.
Proof.
  destruct (tax_rate_list_six_place_two_compounds
              [LongExamples.second6; LongExamples.base6; LongExamples.first6]
              LongExamples.first6 LongExamples.second6)
    as [Hcodes Hv].
  - reflexivity.
  - repeat constructor.
  - simpl. lia.
  - apply perm_swap.
  - reflexivity.
  - split; [exact Hcodes|]. rewrite Hv. reflexivity.
Defined.

(** X28. For percentages of six decimal places and at most seven digits,
    in a list of at most a thousand records of which at most two are
    compound, the percentages of the breakdown sum exactly to the total
    rate. *)
Theorem tax_rate_list_six_place_breakdown_sums (rates : list TaxRate) :
  Forall six_place rates ->
  (length rates <= 1000)%nat ->
  (length (compound_of rates) <= 2)%nat ->
  (receipt_total (snd (tax_rate_list rates))
   == Dec.value (fst (tax_rate_list rates)))%Q.
Proof.
  intros Hsix Hlen Hlen2.
  destruct (List.filter override rates) as [|r ovr] eqn:Hov.
  - apply tax_rate_list_in_step; [exact Hov|].
    now apply six_place_no_rounding.
  - apply tax_rate_list_override_in_step. rewrite Hov. discriminate.
Qed.

Lemma tax_rate_list_six_place_breakdown_sums_witness :
  (receipt_total
     (snd (tax_rate_list
             [LongExamples.second6; LongExamples.base6; LongExamples.first6]))
   == Dec.value
        (fst (tax_rate_list
                [LongExamples.second6; LongExamples.base6; LongExamples.first6])))%Q.
Proof.
  apply (tax_rate_list_six_place_breakdown_sums
           [LongExamples.second6; LongExamples.base6; LongExamples.first6]).
  - repeat constructor.
  - simpl. lia.
  - simpl. lia.
Defined.

(** ** More on the rate fetcher *)

Section RateFetcherMore.
Context (db : Store).

Lemma locate_never_raises self area country :
  never_raises (locate db self area country).
Proof. apply location_stage_never_raises. Qed.

Lemma matching_rates_unfold (tc : TaxClass)
    (a : option AdminArea) (c : option Country) :
  match c with
  | Some c' =>
      match a with Some a' => [] ++ rates_by_zone db tc a' | None => [] end
      ++ rates_by_country db tc c'
  | None => match a with Some a' => [] ++ rates_by_zone db tc a' | None => [] end
  end = matching_rates db tc a c.
Proof.
  unfold matching_rates. destruct a, c; simpl; now rewrite ?app_nil_r.
Qed.

(** What [get_rate] does once the location and the class are settled. *)
Lemma get_rate_resolved self taxclass cls area country get_object lg a c lg1 :
  resolves db taxclass cls ->
  locate db self area country lg = (Return (a, c), lg1) ->
  get_rate db self taxclass area country get_object lg
  = (Return (rate_result get_object (tax_rate_list (matching_rates db cls a c))),
     lg1 ++ [got_rates]).
Proof.
  unfold resolves, locate. intros Hcls Hloc. unfold get_rate.
  rewrite (bind_Return _ _ _ _ _ Hloc). cbn iota.
  assert (match effective_taxclass taxclass with
          | inl name =>
              try_except (taxclass_by_name db name) (is_DoesNotExist MTaxClass)
                (raise (ImproperlyConfigured name))
          | inr tc => ret tc
          end lg1 = (Return cls, lg1)) as Hget.
  { destruct (effective_taxclass taxclass) as [name|tc].
    - unfold taxclass_by_name. now rewrite try_get_bare, Hcls.
    - now subst. }
  rewrite (bind_Return _ _ _ _ _ Hget). unfold bind, log. cbn iota.
  rewrite matching_rates_unfold. now destruct get_object.
Qed.

Lemma get_rate_unresolved self taxclass name area country get_object lg a c lg1 :
  effective_taxclass taxclass = inl name ->
  List.find (fun c => iexact (title c) name) (TaxClass_objects db) = None ->
  locate db self area country lg = (Return (a, c), lg1) ->
  get_rate db self taxclass area country get_object lg
  = (Raise (ImproperlyConfigured name), lg1).
Proof.
  unfold locate. intros Heff Hfind Hloc. unfold get_rate.
  rewrite (bind_Return _ _ _ _ _ Hloc), Heff. cbn iota.
  unfold bind at 1, taxclass_by_name. now rewrite try_get_bare, Hfind.
Qed.

(** Either the class resolves or the name it was asked under is unknown. *)
Lemma resolves_or_not (taxclass : TaxClassArg) :
  (exists cls, resolves db taxclass cls)
  \/ (exists name,
        effective_taxclass taxclass = inl name
        /\ List.find (fun c => iexact (title c) name) (TaxClass_objects db) = None).
Proof.
  unfold resolves. destruct (effective_taxclass taxclass) as [name|tc].
  - destruct (List.find (fun c => iexact (title c) name) (TaxClass_objects db))
      as [cls|] eqn:Hfind.
    + left. now exists cls.
    + right. now exists name.
  - left. now exists tc.
Qed.

Lemma filter_first_override (rates : list TaxRate) (r : TaxRate) rest :
  List.filter override rates = r :: rest ->
  tax_rate_list rates = (percentage r, [(taxCode r, percentage r)]).
Proof.
  intros H. destruct rates as [|r0 rates]; [discriminate|].
  unfold tax_rate_list. now rewrite H.
Qed.
End RateFetcherMore.

(** X5. Asked for the total only, [get_rate] returns the first component of
    what it returns when asked for the rate objects, raises in the same
    cases, and leaves the same log. *)
Theorem get_rate_total_of_objects (db : Store) (self : Processor)
    (taxclass : TaxClassArg) (area : option AdminArea) (country : option Country)
    (lg : list LogRecord) :
  get_rate db self taxclass area country false lg
  = (match fst (get_rate db self taxclass area country true lg) with
     | Return r => Return (fst r)
     | Raise e => Raise e
     end,
     snd (get_rate db self taxclass area country true lg)).
Proof.
  destruct (locate_never_raises db self area country lg) as ([a c] & lg1 & Hloc).
  destruct (resolves_or_not db taxclass) as [[cls Hcls]|(name & Heff & Hfind)].
  - now rewrite !(get_rate_resolved db self taxclass cls area country _ lg a c lg1).
  - now rewrite !(get_rate_unresolved db self taxclass name area country _ lg a c lg1).
Qed.

(** X6. When an area or a country is passed in, [get_rate] does not consult
    the order or the user: for a class that resolves it reduces the rates of
    that area followed by those of that country, and logs one debug record. *)
Theorem get_rate_explicit_location (db : Store) (self : Processor)
    (taxclass : TaxClassArg) (cls : TaxClass)
    (area : option AdminArea) (country : option Country) (lg : list LogRecord) :
  is_Some_b area || is_Some_b country = true ->
  resolves db taxclass cls ->
  get_rate db self taxclass area country true lg
  = (Return (tax_rate_list (matching_rates db cls area country)),
     lg ++ [got_rates]).
Proof.
  intros Hgiven Hcls.
  apply (get_rate_resolved db self taxclass cls area country true lg area country lg);
    [exact Hcls|].
  unfold locate. now rewrite Hgiven.
Qed.

Lemma get_rate_explicit_location_witness :
  get_rate (Examples.store false "Shipping") Examples.processor
    (TcName "default") None (Some Examples.CA) true []
  = (Return (tax_rate_list [Examples.GST; Examples.PST]), [got_rates]).
Proof.
  apply (get_rate_explicit_location (Examples.store false "Shipping")
           Examples.processor (TcName "default") Examples.Default_class
           None (Some Examples.CA) []); reflexivity.
Defined.

(** X7. A tax class without any rate is no error: [get_rate] returns the
    rate [0.00] and an empty breakdown. *)
Theorem get_rate_no_rates (db : Store) (self : Processor)
    (taxclass : TaxClassArg) (cls : TaxClass)
    (area : option AdminArea) (country : option Country) (lg : list LogRecord) :
  resolves db taxclass cls ->
  Forall (fun r => taxClass r <> taxclass_id cls) (TaxRate_objects db) ->
  fst (get_rate db self taxclass area country true lg) = Return (Dec.zero_00, []).
Proof.
  intros Hcls Hnone.
  destruct (locate_never_raises db self area country lg) as ([a c] & lg1 & Hloc).
  rewrite (get_rate_resolved db self taxclass cls area country true lg a c lg1 Hcls Hloc).
  assert (forall g : TaxRate -> bool,
             List.filter (fun r => (taxClass r =? taxclass_id cls) && g r)
               (TaxRate_objects db) = []) as Hempty.
  { intros g. apply filter_none. eapply List.Forall_impl; [|exact Hnone].
    simpl. intros r Hr. now destruct (Z.eqb_spec (taxClass r) (taxclass_id cls)). }
  unfold matching_rates, rates_by_zone, rates_by_country.
  destruct a, c; now rewrite ?Hempty.
Qed.

Lemma get_rate_no_rates_witness :
  fst (get_rate (Examples.store false "Shipping") Examples.processor
         (TcObj {| taxclass_id := 3; title := "Books" |}) None None true [])
  = Return (Dec.zero_00, []).
Proof.
  apply (get_rate_no_rates (Examples.store false "Shipping") Examples.processor
           (TcObj {| taxclass_id := 3; title := "Books" |})
           {| taxclass_id := 3; title := "Books" |}).
  - reflexivity.
  - repeat constructor; discriminate.
Defined.

(** X8. An override rate of the area supersedes everything else: when the
    rates of the area hold an override, [get_rate] returns the first of them
    alone, whatever rates the country has. *)
Theorem get_rate_area_override (db : Store) (self : Processor)
    (taxclass : TaxClassArg) (cls : TaxClass) (area : AdminArea)
    (country : option Country) (r : TaxRate) (rest : list TaxRate)
    (lg : list LogRecord) :
  resolves db taxclass cls ->
  List.filter override (rates_by_zone db cls area) = r :: rest ->
  fst (get_rate db self taxclass (Some area) country true lg)
  = Return (percentage r, [(taxCode r, percentage r)]).
Proof.
  intros Hcls Hov.
  rewrite (get_rate_resolved db self taxclass cls (Some area) country true lg
             (Some area) country lg Hcls eq_refl).
  simpl. f_equal. apply (filter_first_override _ r (rest ++ List.filter override
    match country with Some c => rates_by_country db cls c | None => [] end)).
  unfold matching_rates. now rewrite List.filter_app, Hov.
Qed.

Lemma get_rate_area_override_witness :
  fst (get_rate AreaExamples.store Examples.processor TcNone
         (Some AreaExamples.Alberta) (Some Examples.CA) true [])
  = Return (Examples.pct 13, [("HST", Examples.pct 13)]).
Proof.
  apply (get_rate_area_override AreaExamples.store Examples.processor TcNone
           Examples.Default_class AreaExamples.Alberta (Some Examples.CA)
           AreaExamples.HST_Alberta []); reflexivity.
Defined.

(** ** The jurisdiction resolver *)

Section LocationMore.
Context (db : Store).

Lemma bind_never_raises_inv {A B} (m : M A) (k : A -> M B) lg :
  never_raises m ->
  exists a lg1, m lg = (Return a, lg1) /\ bind m k lg = k a lg1.
Proof.
  intros Hm. destruct (Hm lg) as (a & lg1 & H). exists a, lg1.
  split; [exact H|]. now apply bind_Return.
Qed.

(** The second half of [_get_location]: the area string is looked up by
    name, then by abbreviation, within the country settled before. *)
Lemma area_lookup (a : string) (country : option Country) lg :
  let in_country (r : AdminArea) :=
    match country with
    | Some c => area_country r =? country_id c
    | None => false
    end in
  try_except
    (let* r := objects_get MAdminArea (AdminArea_objects db)
                 (fun r => iexact (area_name r) a && in_country r) in
     ret (Some r))
    (is_DoesNotExist MAdminArea)
    (try_except
       (let* r := objects_get MAdminArea (AdminArea_objects db)
                    (fun r => iexact (area_abbrev r) a && in_country r) in
        ret (Some r))
       (is_DoesNotExist MAdminArea)
       (let* _ := log INFO "Couldn't find AdminArea from string: %s" in ret None))
    lg
  = match List.find (fun r => iexact (area_name r) a && in_country r)
            (AdminArea_objects db) with
    | Some r => (Return (Some r), lg)
    | None =>
        match List.find (fun r => iexact (area_abbrev r) a && in_country r)
                (AdminArea_objects db) with
        | Some r => (Return (Some r), lg)
        | None => (Return None, lg ++ [area_not_found])
        end
    end.
Proof.
  intros in_country.
  rewrite try_get by (intros; apply never_raises_ret).
  destruct (List.find _ (AdminArea_objects db)); [reflexivity|].
  rewrite try_get by (intros; apply never_raises_ret).
  destruct (List.find _ (AdminArea_objects db)); reflexivity.
Qed.
Lemma country_lookup (code : string) lg :
  try_except
    (let* c := objects_get MCountry (Country_objects db)
                 (fun c => String.eqb (iso2_code c) code) in
     ret (Some c))
    (is_DoesNotExist MCountry)
    (let* _ := log ERROR "Couldn't find Country from string: %s" in ret None)
    lg
  = match List.find (fun c => String.eqb (iso2_code c) code) (Country_objects db) with
    | Some c => (Return (Some c), lg)
    | None => (Return None, lg ++ [country_not_found])
    end.
Proof.
  rewrite try_get by (intros; apply never_raises_ret).
  destruct (List.find _ (Country_objects db)); reflexivity.
Qed.

Lemma final_stage (st : option string) (country : option Country) lg :
  match st with
  | Some a =>
      if nonempty a then
        let in_country (r : AdminArea) :=
          match country with
          | Some c => area_country r =? country_id c
          | None => false
          end in
        let* area :=
          try_except
            (let* r := objects_get MAdminArea (AdminArea_objects db)
                         (fun r => iexact (area_name r) a && in_country r) in
             ret (Some r))
            (is_DoesNotExist MAdminArea)
            (try_except
               (let* r := objects_get MAdminArea (AdminArea_objects db)
                            (fun r => iexact (area_abbrev r) a && in_country r) in
                ret (Some r))
               (is_DoesNotExist MAdminArea)
               (let* _ := log INFO "Couldn't find AdminArea from string: %s" in
                ret None)) in
        ret (area, country)
      else ret (None, country)
  | None => ret (None, country)
  end lg
  = (Return (resolved_area db st country, country),
     lg ++ area_infos db st country).
Proof.
  unfold area_infos, resolved_area, ret. destruct st as [a|];
    [|(simpl; rewrite ?app_nil_r; reflexivity)].
  destruct (nonempty a); [|(simpl; rewrite ?app_nil_r; reflexivity)]. cbv zeta.
  pose proof (area_lookup a country lg) as Hlookup. cbv zeta in Hlookup.
  destruct (List.find (fun r => iexact (area_name r) a && _) (AdminArea_objects db))
    as [r|].
  - rewrite (bind_Return _ _ _ _ _ Hlookup). (simpl; rewrite ?app_nil_r; reflexivity).
  - destruct (List.find (fun r => iexact (area_abbrev r) a && _)
                (AdminArea_objects db)) as [r|];
      rewrite (bind_Return _ _ _ _ _ Hlookup); (simpl; rewrite ?app_nil_r; reflexivity).
Qed.

(** [_get_location] in two steps: the address strings, then the rows. *)
Lemma _get_location_shape (self : Processor) lg :
  exists st co lg1,
    (forall o, order self = Some o ->
               st = Some (order_state db o)
               /\ co = country_by_code db (order_country db o)
               /\ lg1 = lg ++ country_errors db o)
    /\ (order self = None ->
        st = state <$> user_address db self
        /\ co = country <$> user_address db self
        /\ lg1 = lg)
    /\ _get_location db self lg
       = (Return (resolved_area db st (country_or_default db co),
                  country_or_default db co),
          lg1 ++ area_infos db st (country_or_default db co)).
Proof.
  unfold _get_location. cbv zeta.
  match goal with
  | |- context [bind ?m ?k lg] =>
      assert (exists st co lg1,
                 (forall o, order self = Some o ->
                            st = Some (order_state db o)
                            /\ co = country_by_code db (order_country db o)
                            /\ lg1 = lg ++ country_errors db o)
                 /\ (order self = None ->
                     st = state <$> user_address db self
                     /\ co = country <$> user_address db self
                     /\ lg1 = lg)
                 /\ m lg = (Return (st, co), lg1)) as (st & co & lg1 & Ho & Hu & Hstage)
  end.
  { unfold country_errors, order_state, order_country, country_by_code, user_address.
    destruct (order self) as [o|].
    - eexists _, _, _. split; [|split]; [intros o' [= <-]; eauto|discriminate|].
      destruct (String.eqb (TAX_AREA_ADDRESS (settings db)) "ship").
      + destruct (nonempty (ship_country o)); [|(simpl; rewrite ?app_nil_r; reflexivity)].
        pose proof (country_lookup (ship_country o) lg) as Hl.
        destruct (List.find _ (Country_objects db));
          rewrite (bind_Return _ _ _ _ _ Hl); (simpl; rewrite ?app_nil_r; reflexivity).
      + destruct (nonempty (bill_country o)); [|(simpl; rewrite ?app_nil_r; reflexivity)].
        pose proof (country_lookup (bill_country o) lg) as Hl.
        destruct (List.find _ (Country_objects db));
          rewrite (bind_Return _ _ _ _ _ Hl); (simpl; rewrite ?app_nil_r; reflexivity).
    - eexists _, _, _. split; [|split]; [discriminate|intros _; eauto|].
      destruct (user self) as [u|]; [|reflexivity].
      destruct (is_authenticated u); [|reflexivity].
      rewrite try_get by (intros; apply never_raises_ret).
      destruct (List.find _ (Contact_objects db)); reflexivity. }
  exists st, co, lg1. split; [exact Ho|]. split; [exact Hu|].
  rewrite (bind_Return _ _ _ _ _ Hstage). cbv beta iota.
  apply final_stage.
Qed.
End LocationMore.

Section LocationResults.
Context (db : Store).

Lemma resolved_area_sound (st : option string) (country : option Country)
    (r : AdminArea) :
  resolved_area db st country = Some r ->
  In r (AdminArea_objects db)
  /\ (exists c, country = Some c /\ area_country r = country_id c)
  /\ (exists a, st = Some a
                /\ (iexact (area_name r) a = true \/ iexact (area_abbrev r) a = true)).
Proof.
  unfold resolved_area. destruct st as [a|]; [|discriminate].
  destruct (nonempty a); [|discriminate]. cbv zeta.
  assert (forall f : AdminArea -> bool,
             f r && match country with
                    | Some c => area_country r =? country_id c
                    | None => false
                    end = true ->
             f r = true /\ exists c, country = Some c /\ area_country r = country_id c)
    as Hmatch.
  { intros f H. apply andb_prop in H as [Hf Hc]. split; [exact Hf|].
    destruct country as [c|]; [|discriminate]. exists c. split; [reflexivity|].
    now apply Z.eqb_eq. }
  destruct (List.find _ (AdminArea_objects db)) as [r1|] eqn:H1.
  - intros [= ->]. apply List.find_some in H1 as [Hin H1].
    apply (Hmatch (fun r => iexact (area_name r) a)) in H1 as [Hname Hc].
    eauto 7.
  - intros H2. apply List.find_some in H2 as [Hin H2].
    apply (Hmatch (fun r => iexact (area_abbrev r) a)) in H2 as [Habbrev Hc].
    eauto 7.
Qed.
End LocationResults.

(** X9. [_get_location] never raises, and it returns no country only when
    the store has no sales country to fall back on. *)
Theorem _get_location_falls_back (db : Store) (self : Processor)
    (lg : list LogRecord) :
  exists area country lg',
    _get_location db self lg = (Return (area, country), lg')
    /\ (country = None -> sales_country db = None).
Proof.
  destruct (_get_location_shape db self lg) as (st & co & lg1 & _ & _ & Hrun).
  eexists _, _, _. split; [exact Hrun|].
  unfold country_or_default. now destruct co.
Qed.

(** X10. An area [_get_location] returns is a row of the area directory that
    lies in the returned country, and for an order its name or abbreviation
    is the order's state string, letter case aside. *)
Theorem _get_location_area_sound (db : Store) (self : Processor)
    (lg lg' : list LogRecord) (r : AdminArea) (country : option Country) :
  _get_location db self lg = (Return (Some r, country), lg') ->
  In r (AdminArea_objects db)
  /\ (exists c, country = Some c /\ area_country r = country_id c)
  /\ (forall o, order self = Some o ->
                iexact (area_name r) (order_state db o) = true
                \/ iexact (area_abbrev r) (order_state db o) = true).
Proof.
  destruct (_get_location_shape db self lg) as (st & co & lg1 & Ho & _ & Hrun).
  rewrite Hrun. intros [= Harea <- _].
  apply resolved_area_sound in Harea as (Hin & Hc & a & -> & Hmatch).
  split; [exact Hin|]. split; [exact Hc|].
  intros o Hord. destruct (Ho o Hord) as ([= ->] & _). exact Hmatch.
Qed.

Lemma _get_location_area_sound_witness :
  In AreaExamples.Alberta (AdminArea_objects AreaExamples.store)
  /\ (iexact (area_name AreaExamples.Alberta)
        (order_state AreaExamples.store AreaExamples.order_to_Alberta) = true
      \/ iexact (area_abbrev AreaExamples.Alberta)
           (order_state AreaExamples.store AreaExamples.order_to_Alberta) = true).
Proof.
  destruct (_get_location_area_sound AreaExamples.store
              (set_order Examples.processor AreaExamples.order_to_Alberta)
              [] [] AreaExamples.Alberta (Some Examples.CA))
    as (Hin & _ & Hstate).
  - reflexivity.
  - split; [exact Hin|]. now apply Hstate.
Defined.

(** X11. With an order, the user plays no part: the country is the row with
    the order's ISO code and, when the code is empty or unknown, the store's
    sales country; an unknown code is logged as an error, and after it at
    most the note about an unknown area. *)
Theorem _get_location_of_order (db : Store) (self : Processor) (o : Order)
    (lg : list LogRecord) :
  order self = Some o ->
  exists area lg2,
    _get_location db self lg
    = (Return (area,
               country_or_default db (country_by_code db (order_country db o))),
       (lg ++ country_errors db o) ++ lg2)
    /\ (lg2 = [] \/ lg2 = [area_not_found]).
Proof.
  intros Hord.
  destruct (_get_location_shape db self lg) as (st & co & lg1 & Ho & _ & Hrun).
  destruct (Ho o Hord) as (-> & -> & ->).
  eexists _, _. split; [exact Hrun|].
  unfold area_infos. destruct (_ && _); auto.
Qed.

Lemma _get_location_of_order_witness :
  exists area lg2,
    _get_location AreaExamples.store
      (set_order Examples.processor AreaExamples.order_to_nowhere) []
    = (Return (area, Some AreaExamples.US), ([] ++ [country_not_found]) ++ lg2)
    /\ (lg2 = [] \/ lg2 = [area_not_found]).
Proof.
  apply (_get_location_of_order AreaExamples.store
           (set_order Examples.processor AreaExamples.order_to_nowhere)
           AreaExamples.order_to_nowhere []).
  reflexivity.
Defined.

(** X12. Without an order and without an address to go by (no user, a user
    who is not authenticated, no contact for the user, or a contact without
    the address asked for), [_get_location] returns no area and the store's
    sales country, and logs nothing. *)
Theorem _get_location_unknown_user (db : Store) (self : Processor)
    (lg : list LogRecord) :
  order self = None ->
  user_address db self = None ->
  _get_location db self lg = (Return (None, sales_country db), lg).
Proof.
  intros Hord Haddr.
  destruct (_get_location_shape db self lg) as (st & co & lg1 & _ & Hu & Hrun).
  destruct (Hu Hord) as (-> & -> & ->). rewrite Haddr in Hrun.
  rewrite Hrun. simpl. now rewrite app_nil_r.
Qed.

Lemma _get_location_unknown_user_witness :
  _get_location AreaExamples.store
    {| order := None; user := Some {| user_id := 8; is_authenticated := true |} |} []
  = (Return (None, Some AreaExamples.US), []).
Proof.
  apply (_get_location_unknown_user AreaExamples.store
           {| order := None;
              user := Some {| user_id := 8; is_authenticated := true |} |} []);
    reflexivity.
Defined.

(** X13. Without an order, for an authenticated user whose contact has the
    address asked for, the country is the address's country, not the sales
    country, and the area is looked up in that country from the address's
    state. *)
Theorem _get_location_of_contact (db : Store) (self : Processor)
    (addr : AddressBook) (lg : list LogRecord) :
  order self = None ->
  user_address db self = Some addr ->
  _get_location db self lg
  = (Return (resolved_area db (Some (state addr)) (Some (country addr)),
             Some (country addr)),
     lg ++ area_infos db (Some (state addr)) (Some (country addr))).
Proof.
  intros Hord Haddr.
  destruct (_get_location_shape db self lg) as (st & co & lg1 & _ & Hu & Hrun).
  destruct (Hu Hord) as (-> & -> & ->). now rewrite Haddr in Hrun.
Qed.

Lemma _get_location_of_contact_witness :
  _get_location AreaExamples.store
    {| order := None; user := Some AreaExamples.shopper |} []
  = (Return (Some AreaExamples.Alberta, Some Examples.CA), []).
Proof.
  apply (_get_location_of_contact AreaExamples.store
           {| order := None; user := Some AreaExamples.shopper |}
           {| state := "Alberta"; country := Examples.CA |} []);
    reflexivity.
Defined.

(** ** More on shipping tax *)

Section ShippingMore.
Context (db : Store).
Import Dec DecFacts.

Lemma value_not_truthy (r : Decimal) : truthy r = false -> (value r == 0)%Q.
Proof.
  unfold truthy, value. destruct (Z.eqb_spec (coef r) 0) as [->|]; [|discriminate].
  intros _. ring.
Qed.

(** When the product is not rounded, the shipping tax is the rate times the
    subtotal. *)
Lemma value_ship_tax_of (r d : Decimal) :
  fits (exact_mul r d) ->
  (value (ship_tax_of (Some r) d) == value r * value d)%Q.
Proof.
  intros Hf. unfold ship_tax_of. destruct (truthy r) eqn:Hr.
  - now apply value_mul.
  - rewrite (value_not_truthy r Hr), value_zero_00. ring.
Qed.

(** What [shipping_rate] returns: a rate with its lines, or no rate and no
    lines. *)
Lemma shipping_rate_shape self lg :
  exists fr taxes lg',
    shipping_rate db self lg = (Return (fr, taxes), lg')
    /\ (fr = None -> taxes = []).
Proof.
  unfold shipping_rate, taxclass_by_title.
  destruct (TAX_SHIPPING_CANADIAN (settings db)); [|now eexists None, [], _].
  rewrite try_get_any by apply shipping_rate_after_lookup.
  destruct (List.find _ (TaxClass_objects db)) as [cls|];
    [|now eexists None, [], _].
  destruct (get_rate db self (TcObj cls) None None true lg)
    as [[[r taxes]|e] lg1] eqn:Hrate.
  - rewrite (bind_Return _ _ _ _ _ Hrate). exists (Some r), taxes, lg1.
    split; [reflexivity|discriminate].
  - destruct (get_rate_object_never_raises db self cls None None true lg)
      as (v & lg2 & Hret). congruence.
Qed.

Lemma shipping_given self subtotal d with_details lg fr taxes lg1 :
  shipping_subtotal self subtotal = Some d ->
  truthy d = true ->
  shipping_rate db self lg = (Return (fr, taxes), lg1) ->
  shipping db self subtotal with_details lg
  = (Return (shipping_result with_details
               (ship_tax_of fr d,
                if with_details then add_details taxes d ∅ else ∅)),
     lg1).
Proof.
  intros Hsub Hd Hrate. unfold shipping. rewrite Hsub, Hd.
  erewrite bind_Return
    by (rewrite (bind_Return _ _ _ _ _ Hrate); reflexivity).
  now destruct with_details.
Qed.

Lemma shipping_not_given self subtotal with_details lg :
  subtotal_given (shipping_subtotal self subtotal) = false ->
  shipping db self subtotal with_details lg
  = (Return (no_shipping_tax with_details), lg).
Proof.
  intros Hsub. unfold shipping.
  destruct (shipping_subtotal self subtotal) as [d|]; simpl in Hsub.
  - rewrite Hsub. now destruct with_details.
  - now destruct with_details.
Qed.
End ShippingMore.

(** X14. Without a subtotal to tax ([None] and no order, or a zero amount),
    [shipping] returns [0.00] and an empty detail map: it looks nothing up
    and logs nothing, however the store is configured. *)
Theorem shipping_without_subtotal (db : Store) (self : Processor)
    (subtotal : option Decimal) (with_details : bool) (lg : list LogRecord) :
  subtotal_given (shipping_subtotal self subtotal) = false ->
  shipping db self subtotal with_details lg
  = (Return (no_shipping_tax with_details), lg).
Proof. apply shipping_not_given. Qed.

Lemma shipping_without_subtotal_witness :
  shipping Examples.bare_store
    (set_order Examples.processor AreaExamples.order_to_nowhere) None true []
  = (Return (Dec.zero_00, ∅), []).
Proof.
  apply (shipping_without_subtotal Examples.bare_store
           (set_order Examples.processor AreaExamples.order_to_nowhere) None true []).
  reflexivity.
Defined.

(** X15. Asked for the tax only, [shipping] returns the first component of
    what it returns with details, and leaves the same log. *)
Theorem shipping_tax_of_details (db : Store) (self : Processor)
    (subtotal : option Decimal) (lg : list LogRecord) :
  shipping db self subtotal false lg
  = (match fst (shipping db self subtotal true lg) with
     | Return r => Return (fst r)
     | Raise e => Raise e
     end,
     snd (shipping db self subtotal true lg)).
Proof.
  destruct (subtotal_given (shipping_subtotal self subtotal)) eqn:Hsub.
  - unfold subtotal_given in Hsub.
    destruct (shipping_subtotal self subtotal) as [d|] eqn:Hd; [|discriminate].
    destruct (shipping_rate_shape db self lg) as (fr & taxes & lg1 & Hrate & _).
    now rewrite !(shipping_given db self subtotal d _ lg fr taxes lg1 Hd Hsub Hrate).
  - now rewrite !(shipping_not_given db self subtotal _ lg Hsub).
Qed.

(** X17. With shipping tax enabled, a subtotal that is not zero and a tax
    class titled as [TAX_CLASS] says, the shipping tax is that class's total
    rate times the subtotal (0.00 for a rate of zero), and the amount under
    each code is built from 0.00 by adding the code's rate times the
    subtotal, every product and sum being a Decimal operation, rounded to 28
    significant digits. When these results have no more than 28 digits they
    are the exact products. *)
Theorem shipping_rate_times_subtotal (db : Store) (self : Processor)
    (subtotal : option Decimal) (d : Decimal) (cls : TaxClass)
    (lg : list LogRecord) :
  TAX_SHIPPING_CANADIAN (settings db) = true ->
  List.find (fun c => String.eqb (title c) (TAX_CLASS (settings db)))
    (TaxClass_objects db) = Some cls ->
  shipping_subtotal self subtotal = Some d ->
  Dec.truthy d = true ->
  exists rate taxes tax details lg',
    get_rate db self (TcObj cls) None None true lg = (Return (rate, taxes), lg')
    /\ shipping db self subtotal true lg = (Return (tax, details), lg')
    /\ tax = (if Dec.truthy rate then Dec.mul rate d else Dec.zero_00)
    /\ (forall code, details !! code = code_amount code taxes d None)
    /\ (Dec.fits (Dec.exact_mul rate d) ->
        (Dec.value tax == Dec.value rate * Dec.value d)%Q)
    /\ (forall code, code_fits code taxes d None ->
                     (value_at details code == charged taxes d code)%Q).
Proof.
  intros Hflag Hfind Hsub Hd.
  destruct (get_rate_object_never_raises db self cls None None true lg)
    as ([rate taxes] & lg1 & Hrate).
  assert (shipping_rate db self lg = (Return (Some rate, taxes), lg1)) as Hsr.
  { unfold shipping_rate, taxclass_by_title.
    rewrite Hflag, try_get_any by apply shipping_rate_after_lookup.
    rewrite Hfind. now rewrite (bind_Return _ _ _ _ _ Hrate). }
  exists rate, taxes, (ship_tax_of (Some rate) d), (add_details taxes d ∅), lg1.
  split; [exact Hrate|]. split; [|split; [|split; [|split]]].
  - apply (shipping_given db self subtotal d true lg (Some rate) taxes lg1);
      assumption.
  - reflexivity.
  - intros code. now rewrite add_details_lookup, lookup_empty.
  - apply value_ship_tax_of.
  - intros code Hfit. unfold value_at.
    rewrite add_details_lookup, lookup_empty, (value_code_amount _ _ _ _ Hfit).
    simpl. ring.
Qed.

Lemma shipping_rate_times_subtotal_witness :
  exists rate taxes tax details lg',
    get_rate (Examples.store false "Shipping") Examples.processor
      (TcObj Examples.Shipping_class) None None true []
    = (Return (rate, taxes), lg')
    /\ shipping (Examples.store false "Shipping") Examples.processor
         (Some (Dec.mk 1000 (-2))) true []
       = (Return (tax, details), lg')
    /\ tax = (if Dec.truthy rate then Dec.mul rate (Dec.mk 1000 (-2))
              else Dec.zero_00)
    /\ (forall code,
          details !! code = code_amount code taxes (Dec.mk 1000 (-2)) None).
Proof.
  destruct (shipping_rate_times_subtotal (Examples.store false "Shipping")
              Examples.processor (Some (Dec.mk 1000 (-2))) (Dec.mk 1000 (-2))
              Examples.Shipping_class [] eq_refl eq_refl eq_refl eq_refl)
    as (rate & taxes & tax & details & lg' & Hrate & Hship & Htax & Hcodes & _).
  exists rate, taxes, tax, details, lg'. auto.
Defined.

(** ** More on order aggregation *)

Section ProcessMore.
Context (db : Store).
Import Dec DecFacts.

(** [process] on the order it works on, step by step. *)
Lemma process_unfold self order_arg o lg :
  process_order self order_arg = Some o ->
  process db self order_arg lg
  = (let* '(t, d) :=
       for_each (taxable_items o) (process_item db (set_order self o))
         (zero_00, ∅) in
     let* '(ship_taxes, ship_tax_details) :=
       shipping db (set_order self o) None true in
     let* tax_details :=
       if TAX_SHIPPING_DETAILS_SEPARATE (settings db) then
         shipping_details_separate ship_tax_details d
       else ret (shipping_details_merged ship_tax_details d) in
     ret (add t ship_taxes, tax_details)) lg.
Proof.
  intros Ho. unfold process.
  assert (match order_arg with
          | Some o' => set_order self o'
          | None => self
          end = set_order self o) as ->.
  { destruct order_arg as [o'|]; simpl in Ho; [congruence|].
    destruct self as [ord usr]. simpl in Ho. now subst. }
  reflexivity.
Qed.

Lemma item_resolves (item : OrderItem) :
  has_default db || is_Some_b (product_taxClass (product item)) = true ->
  exists cls, resolves db (taxclass_arg (product_taxClass (product item))) cls.
Proof.
  unfold resolves, has_default.
  destruct (product_taxClass (product item)) as [tc|]; simpl; [eauto|].
  destruct (List.find _ (TaxClass_objects db)) as [cls|]; [eauto|discriminate].
Qed.

(** One turn of the item loop for an item whose class can be found. *)
Lemma process_item_resolved self t d item lg :
  has_default db || is_Some_b (product_taxClass (product item)) = true ->
  exists r lg1,
    process_item db self (t, d) item lg
    = (Return (add t (mul (sub_total item) r),
               add_details (item_taxes db self item) (sub_total item) d), lg1)
    /\ forall lg0,
         fst (get_rate db self (taxclass_arg (product_taxClass (product item)))
                None None false lg0) = Return r.
Proof.
  intros Hres. destruct (item_resolves item Hres) as [cls Hcls].
  destruct (locate_never_raises db self None None lg) as ([a c] & lg1 & Hloc).
  pose proof (get_rate_resolved db self _ cls None None true lg a c lg1 Hcls Hloc)
    as Hrate.
  destruct (tax_rate_list (matching_rates db cls a c)) as [r taxes] eqn:Hlist.
  simpl in Hrate.
  assert (item_taxes db self item = taxes) as Htaxes.
  { unfold item_taxes, outcome.
    rewrite <- (get_rate_log_blind db self _ None None true lg []).
    now rewrite Hrate. }
  exists r, (lg1 ++ [got_rates]). split.
  - unfold process_item. rewrite (bind_Return _ _ _ _ _ Hrate), Htaxes.
    reflexivity.
  - intros lg0.
    rewrite (get_rate_log_blind db self _ None None false lg0 lg).
    rewrite (get_rate_resolved db self _ cls None None false lg a c lg1 Hcls Hloc).
    now rewrite Hlist.
Qed.

(** One turn of the item loop for an item without a class when no class
    is titled "Default". *)
Lemma process_item_unresolved self acc item lg :
  has_default db = false ->
  product_taxClass (product item) = None ->
  exists lg1,
    process_item db self acc item lg = (Raise (ImproperlyConfigured "Default"), lg1).
Proof.
  unfold has_default. intros Hdef Hcls. destruct acc as [t d].
  destruct (locate_never_raises db self None None lg) as ([a c] & lg1 & Hloc).
  exists lg1. unfold process_item. rewrite Hcls.
  apply bind_Raise.
  apply (get_rate_unresolved db self TcNone "Default" None None true lg a c lg1);
    [reflexivity| |exact Hloc].
  now destruct (List.find _ (TaxClass_objects db)).
Qed.

(** The item loop when every class can be found: the total grows by what
    [by_price] gives for each item in turn. *)
Lemma process_items_resolved self items t d lg :
  items_resolve db items = true ->
  exists t' lg',
    for_each items (process_item db self) (t, d) lg
    = (Return (t', item_details db self items d), lg')
    /\ exists amounts,
         Forall2
           (fun item a =>
              forall lg0,
                fst (by_price db self
                       (taxclass_arg (product_taxClass (product item)))
                       (sub_total item) lg0) = Return a)
           items amounts
         /\ t' = fold_left add amounts t.
Proof.
  unfold items_resolve. revert t d lg.
  induction items as [|item items IH]; intros t d lg Hres.
  - exists t, lg. split; [reflexivity|]. exists []. split; [constructor|reflexivity].
  - assert (has_default db || is_Some_b (product_taxClass (product item)) = true)
      as Hitem.
    { simpl in Hres. destruct (has_default db); [reflexivity|]. simpl in *.
      now apply andb_prop in Hres as [-> _]. }
    assert (has_default db
            || forallb (fun i => is_Some_b (product_taxClass (product i))) items
            = true) as Hrest.
    { simpl in Hres. destruct (has_default db); [reflexivity|]. simpl in *.
      now apply andb_prop in Hres as [_ ->]. }
    destruct (process_item_resolved self t d item lg Hitem)
      as (r & lg1 & Hturn & Hscalar).
    destruct (IH (add t (mul (sub_total item) r))
                (add_details (item_taxes db self item) (sub_total item) d) lg1 Hrest)
      as (t' & lg' & Hloop & amounts & Hall & Htotal).
    exists t', lg'. split.
    + cbn [for_each]. now rewrite (bind_Return _ _ _ _ _ Hturn).
    + exists (mul (sub_total item) r :: amounts). split; [|exact Htotal].
      constructor; [|exact Hall].
      intros lg0. unfold by_price.
      pose proof (Hscalar lg0) as Hs.
      destruct (get_rate db self _ None None false lg0) as [res lg2] eqn:Hg.
      simpl in Hs. subst res.
      rewrite (bind_Return _ _ _ _ _ Hg). simpl. now rewrite mul_comm.
Qed.

(** The item loop when some item has no class and none is titled
    "Default". *)
Lemma process_items_unresolved self items acc lg :
  items_resolve db items = false ->
  exists lg',
    for_each items (process_item db self) acc lg
    = (Raise (ImproperlyConfigured "Default"), lg').
Proof.
  unfold items_resolve. intros Hres.
  apply orb_false_elim in Hres as [Hdef Hall].
  revert acc lg. induction items as [|item items IH]; intros [t d] lg;
    [discriminate|].
  simpl in Hall. cbn [for_each].
  destruct (product_taxClass (product item)) as [tc|] eqn:Hcls.
  - destruct (process_item_resolved self t d item lg) as (r & lg1 & Hturn & _).
    { rewrite Hcls. apply orb_true_r. }
    rewrite (bind_Return _ _ _ _ _ Hturn). now apply IH.
  - destruct (process_item_unresolved self (t, d) item lg Hdef Hcls) as [lg1 Hturn].
    exists lg1. now apply bind_Raise.
Qed.

(** What [shipping] hands to [process]. *)
Lemma shipping_for_process self o lg :
  exists tax lg',
    shipping db (set_order self o) None true lg
    = (Return (tax, add_details (shipping_taxes db (set_order self o) o)
                      (shipping_sub_total o) ∅), lg')
    /\ fst (shipping db (set_order self o) None false lg) = Return tax.
Proof.
  unfold shipping_taxes, outcome.
  rewrite <- (shipping_rate_log_blind db (set_order self o) lg []).
  destruct (truthy (shipping_sub_total o)) eqn:Hd.
  - destruct (shipping_rate_shape db (set_order self o) lg)
      as (fr & taxes & lg1 & Hrate & _).
    rewrite !(shipping_given db (set_order self o) None (shipping_sub_total o)
                _ lg fr taxes lg1 eq_refl Hd Hrate).
    rewrite Hrate. simpl. eexists _, _. split; reflexivity.
  - assert (subtotal_given (shipping_subtotal (set_order self o) None) = false)
      as Hsub by exact Hd.
    rewrite !(shipping_not_given db (set_order self o) None _ lg Hsub).
    simpl. eexists _, _. split; reflexivity.
Qed.
End ProcessMore.

Section ProcessResults.
Context (db : Store).
Import Dec DecFacts.

(** The last step of [process] leaves the total as the loops made it. *)
Lemma process_Return self order_arg o lg total details lg' :
  process_order self order_arg = Some o ->
  process db self order_arg lg = (Return (total, details), lg') ->
  exists t tax lg1 lg2,
    for_each (taxable_items o) (process_item db (set_order self o)) (zero_00, ∅) lg
    = (Return (t, item_details db (set_order self o) (taxable_items o) ∅), lg1)
    /\ items_resolve db (taxable_items o) = true
    /\ shipping db (set_order self o) None true lg1
       = (Return (tax, add_details (shipping_taxes db (set_order self o) o)
                         (shipping_sub_total o) ∅), lg2)
    /\ total = add t tax
    /\ (if TAX_SHIPPING_DETAILS_SEPARATE (settings db) then
          shipping_details_separate
            (add_details (shipping_taxes db (set_order self o) o)
               (shipping_sub_total o) ∅)
            (item_details db (set_order self o) (taxable_items o) ∅) lg2
        else
          ret (shipping_details_merged
                 (add_details (shipping_taxes db (set_order self o) o)
                    (shipping_sub_total o) ∅)
                 (item_details db (set_order self o) (taxable_items o) ∅)) lg2)
       = (Return details, lg').
Proof.
  intros Ho. rewrite (process_unfold db self order_arg o lg Ho).
  destruct (items_resolve db (taxable_items o)) eqn:Hres.
  - destruct (process_items_resolved db (set_order self o) (taxable_items o)
                zero_00 ∅ lg Hres) as (t & lg1 & Hloop & _).
    rewrite (bind_Return _ _ _ _ _ Hloop). cbv beta iota.
    destruct (shipping_for_process db self o lg1) as (tax & lg2 & Hship & _).
    rewrite (bind_Return _ _ _ _ _ Hship). cbv beta iota.
    intros Hrun. exists t, tax, lg1, lg2.
    split; [exact Hloop|]. split; [reflexivity|]. split; [exact Hship|].
    unfold bind in Hrun.
    destruct (TAX_SHIPPING_DETAILS_SEPARATE (settings db)).
    + destruct (shipping_details_separate _ _ lg2) as [[td|e] lg3];
        [|discriminate].
      now injection Hrun as <- <- <-.
    + simpl in Hrun. now injection Hrun as <- <- <-.
  - destruct (process_items_unresolved db (set_order self o) (taxable_items o)
                (zero_00, ∅) lg Hres) as (lg1 & Hloop).
    rewrite (bind_Raise _ _ _ _ _ Hloop). discriminate.
Qed.
End ProcessResults.

(** X18. The total tax [process] returns is made of what [by_orderitem]
    gives for the taxable items of the order and what [shipping] gives for
    it: the item taxes are added one after the other from 0.00 in the order
    of the items and the shipping tax is added last, each sum rounded to 28
    significant digits. When no sum has more than 28 digits, the total is
    their exact sum. *)
Theorem process_total_by_orderitem (db : Store) (self : Processor)
    (order_arg : option Order) (o : Order) (lg lg' : list LogRecord)
    (total : Decimal) (details : gmap string Decimal) :
  process_order self order_arg = Some o ->
  process db self order_arg lg = (Return (total, details), lg') ->
  exists (amounts : list Decimal) (ship : Decimal),
    Forall2
      (fun item a => outcome (by_orderitem db (set_order self o) item) = Return a)
      (taxable_items o) amounts
    /\ outcome (shipping db (set_order self o) None false) = Return ship
    /\ total = Dec.add (fold_left Dec.add amounts Dec.zero_00) ship
    /\ (sum_fits amounts Dec.zero_00 ->
        Dec.fits (Dec.exact_add (fold_left Dec.add amounts Dec.zero_00) ship) ->
        (Dec.value total
         == Qsum (List.map Dec.value amounts) + Dec.value ship)%Q).
Proof.
  intros Ho Hrun.
  destruct (process_Return db self order_arg o lg total details lg' Ho Hrun)
    as (t & tax & lg1 & lg2 & Hloop & Hres & Hship & -> & _).
  destruct (process_items_resolved db (set_order self o) (taxable_items o)
              Dec.zero_00 ∅ lg Hres)
    as (t' & lg1' & Hloop' & amounts & Hall & Htotal).
  rewrite Hloop in Hloop'. injection Hloop' as <- <-.
  destruct (shipping_for_process db self o lg1) as (tax' & lg2' & Hship' & Hscalar).
  rewrite Hship in Hship'. injection Hship' as <- <-.
  exists amounts, tax. split; [|split; [|split]].
  - assert (Htax : Forall (fun i => taxable (product i) = true) (taxable_items o)).
    { apply List.Forall_forall. intros i Hi.
      now apply List.filter_In in Hi as [_ Hi]. }
    revert Htax. clear -Hall. induction Hall as [|item a items amounts Ha _ IH];
      intros Htax; [constructor|].
    inversion Htax as [|? ? Hi Hrest]; subst.
    constructor; [|now apply IH].
    unfold outcome, by_orderitem. rewrite Hi. apply Ha.
  - unfold outcome.
    rewrite (shipping_log_blind db (set_order self o) None false [] lg1).
    exact Hscalar.
  - now rewrite Htotal.
  - intros Hs Hf. rewrite Htotal.
    rewrite (DecFacts.value_add _ _ Hf), (value_fold_add _ _ Hs),
      DecFacts.value_zero_00.
    ring.
Qed.

Lemma process_total_by_orderitem_witness :
  exists (amounts : list Decimal) (ship : Decimal),
    Forall2
      (fun item a =>
         outcome (by_orderitem (Examples.store false "Shipping")
                    (set_order Examples.processor Examples.an_order) item)
         = Return a)
      (taxable_items Examples.an_order) amounts
    /\ outcome (shipping (Examples.store false "Shipping")
                  (set_order Examples.processor Examples.an_order) None false)
       = Return ship
    /\ Dec.mk 2970000 (-6) = Dec.add (fold_left Dec.add amounts Dec.zero_00) ship.
Proof.
  destruct (process_total_by_orderitem (Examples.store false "Shipping")
              Examples.processor (Some Examples.an_order) Examples.an_order
              [] [got_rates; got_rates] (Dec.mk 2970000 (-6))
              {[ "GST" := Dec.mk 15000 (-4); "PST" := Dec.mk 1470000 (-6) ]})
    as (amounts & ship & Hitems & Hship & Htotal & _).
  - reflexivity.
  - vm_compute. reflexivity.
  - exists amounts, ship. auto.
Defined.

Section ProcessOutcomes.
Context (db : Store).

Lemma add_details_nonempty (taxes : Receipt) (price : Decimal) :
  taxes <> [] -> add_details taxes price ∅ <> ∅.
Proof.
  destruct taxes as [|[k r] taxes]; [congruence|]. intros _ Hempty.
  assert (is_Some (add_details ((k, r) :: taxes) price ∅ !! k)) as [v Hv].
  { apply is_Some_add_details. left. now left. }
  rewrite Hempty, lookup_empty in Hv. discriminate.
Qed.

Lemma add_details_no_code (taxes : Receipt) (price : Decimal) (code : string) :
  ~ In code (List.map fst taxes) -> add_details taxes price ∅ !! code = None.
Proof.
  intros Hcode.
  destruct (add_details taxes price ∅ !! code) as [v|] eqn:Hv; [|reflexivity].
  assert (is_Some (add_details taxes price ∅ !! code)) as Hsome by eauto.
  apply is_Some_add_details in Hsome as [Hin|[x Hx]]; [contradiction|].
  rewrite lookup_empty in Hx. discriminate.
Qed.

(** [process] up to its last step, when every class can be found. *)
Lemma process_resolved self order_arg o lg :
  process_order self order_arg = Some o ->
  items_resolve db (taxable_items o) = true ->
  exists t tax lg2,
    process db self order_arg lg
    = (let* tax_details :=
         if TAX_SHIPPING_DETAILS_SEPARATE (settings db) then
           shipping_details_separate
             (add_details (shipping_taxes db (set_order self o) o)
                (shipping_sub_total o) ∅)
             (item_details db (set_order self o) (taxable_items o) ∅)
         else
           ret (shipping_details_merged
                  (add_details (shipping_taxes db (set_order self o) o)
                     (shipping_sub_total o) ∅)
                  (item_details db (set_order self o) (taxable_items o) ∅)) in
       ret (Dec.add t tax, tax_details)) lg2.
Proof.
  intros Ho Hres. rewrite (process_unfold db self order_arg o lg Ho).
  destruct (process_items_resolved db (set_order self o) (taxable_items o)
              Dec.zero_00 ∅ lg Hres) as (t & lg1 & Hloop & _).
  rewrite (bind_Return _ _ _ _ _ Hloop). cbv beta iota.
  destruct (shipping_for_process db self o lg1) as (tax & lg2 & Hship & _).
  rewrite (bind_Return _ _ _ _ _ Hship). cbv beta iota.
  now exists t, tax, lg2.
Qed.
End ProcessOutcomes.

(** X20. Keeping the shipping details separate changes nothing when shipping
    bears no tax line: with every class found, [process] returns, and its
    detail map is the one the items alone give. *)
Theorem process_separate_without_shipping_tax (db : Store) (self : Processor)
    (order_arg : option Order) (o : Order) (lg : list LogRecord) :
  TAX_SHIPPING_DETAILS_SEPARATE (settings db) = true ->
  process_order self order_arg = Some o ->
  items_resolve db (taxable_items o) = true ->
  shipping_taxes db (set_order self o) o = [] ->
  exists total lg',
    process db self order_arg lg
    = (Return (total, item_details db (set_order self o) (taxable_items o) ∅), lg').
Proof.
  intros Hflag Ho Hres Hnone.
  destruct (process_resolved db self order_arg o lg Ho Hres)
    as (t & tax & lg2 & ->).
  rewrite Hflag, Hnone. exists (Dec.add t tax), lg2.
  unfold shipping_details_separate, add_details. simpl.
  now rewrite map_to_list_empty.
Qed.

Lemma process_separate_without_shipping_tax_witness :
  exists total lg',
    process (Examples.store true "Freight") Examples.processor
      (Some Examples.an_order) []
    = (Return (total,
               item_details (Examples.store true "Freight")
                 (set_order Examples.processor Examples.an_order)
                 (taxable_items Examples.an_order) ∅), lg').
Proof.
  apply (process_separate_without_shipping_tax (Examples.store true "Freight")
           Examples.processor (Some Examples.an_order) Examples.an_order []);
    reflexivity.
Defined.

(** X21. With the shipping details kept separate, every class found and at
    least one shipping tax line, [process] raises [KeyError('taxCode')]
    unless one of the shipping tax codes is itself "taxCode". *)
Theorem process_separate_KeyError (db : Store) (self : Processor)
    (order_arg : option Order) (o : Order) (lg : list LogRecord) :
  TAX_SHIPPING_DETAILS_SEPARATE (settings db) = true ->
  process_order self order_arg = Some o ->
  items_resolve db (taxable_items o) = true ->
  shipping_taxes db (set_order self o) o <> [] ->
  ~ In "taxCode" (List.map fst (shipping_taxes db (set_order self o) o)) ->
  exists lg', process db self order_arg lg = (Raise (KeyError "taxCode"), lg').
Proof.
  intros Hflag Ho Hres Hsome Hcode.
  destruct (process_resolved db self order_arg o lg Ho Hres)
    as (t & tax & lg2 & ->).
  rewrite Hflag. exists lg2. apply bind_Raise.
  apply shipping_details_separate_KeyError.
  - now apply add_details_nonempty.
  - now apply add_details_no_code.
Qed.

Lemma process_separate_KeyError_witness :
  exists lg',
    process AreaExamples.store_separate Examples.processor
      (Some AreaExamples.order_to_Alberta) []
    = (Raise (KeyError "taxCode"), lg').
Proof.
  apply (process_separate_KeyError AreaExamples.store_separate Examples.processor
           (Some AreaExamples.order_to_Alberta) AreaExamples.order_to_Alberta []).
  - reflexivity.
  - reflexivity.
  - reflexivity.
  - discriminate.
  - vm_compute. intros [H|[]]. discriminate H.
Defined.

(** X22. When a taxable item has no tax class and no class is titled
    "Default", [process] raises [ImproperlyConfigured] for the name
    "Default", whatever else the order holds. *)
Theorem process_improperly_configured (db : Store) (self : Processor)
    (order_arg : option Order) (o : Order) (lg : list LogRecord) :
  process_order self order_arg = Some o ->
  items_resolve db (taxable_items o) = false ->
  exists lg',
    process db self order_arg lg = (Raise (ImproperlyConfigured "Default"), lg').
Proof.
  intros Ho Hres. rewrite (process_unfold db self order_arg o lg Ho).
  destruct (process_items_unresolved db (set_order self o) (taxable_items o)
              (Dec.zero_00, ∅) lg Hres) as (lg1 & Hloop).
  exists lg1. now apply bind_Raise.
Qed.

Lemma process_improperly_configured_witness :
  exists lg',
    process Examples.bare_store Examples.processor (Some Examples.an_order) []
    = (Raise (ImproperlyConfigured "Default"), lg').
Proof.
  apply (process_improperly_configured Examples.bare_store Examples.processor
           (Some Examples.an_order) Examples.an_order []); reflexivity.
Defined.

(** X23. With the shipping details merged, [process] returns for every
    order whose taxable items all have a tax class, and for every order at
    all once a class is titled "Default". *)
Theorem process_merged_returns (db : Store) (self : Processor)
    (order_arg : option Order) (o : Order) (lg : list LogRecord) :
  TAX_SHIPPING_DETAILS_SEPARATE (settings db) = false ->
  process_order self order_arg = Some o ->
  items_resolve db (taxable_items o) = true ->
  exists total details lg',
    process db self order_arg lg = (Return (total, details), lg').
Proof.
  intros Hflag Ho Hres.
  destruct (process_resolved db self order_arg o lg Ho Hres)
    as (t & tax & lg2 & ->).
  rewrite Hflag. now eexists _, _, _.
Qed.

Lemma process_merged_returns_witness :
  exists total details lg',
    process AreaExamples.store Examples.processor
      (Some AreaExamples.order_to_Alberta) []
    = (Return (total, details), lg').
Proof.
  apply (process_merged_returns AreaExamples.store Examples.processor
           (Some AreaExamples.order_to_Alberta) AreaExamples.order_to_Alberta []);
    reflexivity.
Defined.

Lemma shipping_details_separate_taxCode_witness :
  exists d,
    shipping_details_separate
      {[ "taxCode" := Dec.mk 100 (-2); "GST" := Dec.mk 50 (-2) ]} ∅ []
    = (Return d, [])
    /\ forall k,
         is_Some (({[ "taxCode" := Dec.mk 100 (-2); "GST" := Dec.mk 50 (-2) ]}
                   : gmap string Decimal) !! k) ->
         d !! ("Shipping " +:+ k) = Some (Dec.mk 100 (-2)).
Proof.
  apply (shipping_details_separate_taxCode
           {[ "taxCode" := Dec.mk 100 (-2); "GST" := Dec.mk 50 (-2) ]} ∅
           (Dec.mk 100 (-2)) []).
  reflexivity.
Defined.
